(** * lacss.deploy.server: the framed inference server

    A shallow embedding of [src/lacss/deploy/server.py] and the properties
    its specification states about it.

    The server reads length-prefixed protobuf frames from standard input,
    normalises the image they carry, calls an external segmentation model,
    derives a per-pixel score image and writes a length-prefixed [Result]
    frame to standard output.

    Conventions of the embedding:
    - a Python exception is a value of [exn]; a function that can raise
      returns [result A = exn + A];
    - the process state ([sys.stdin.buffer], and everything the process lets
      the outside see) is threaded through the state-and-error monad [M];
    - a numpy array is its shape and its elements in row-major order;
    - [float32] values are IEEE 754 binary32 numbers, taken from the
      Standard Library's [SpecFloat] with precision 24 and [emax] 128;
    - [lacss_pb2] (generated protobuf code) and the segmentation model are
      not part of the sources: the message records follow the schema of the
      specification and parsing, serialisation and inference are variables
      of [Section Server].

    The definitions come first, in the order of the source: the codecs,
    the numpy operations the server uses, [img_to_msg], then [read_input],
    [write_result], [write_polygon_result] and the loop of [main].  The
    theorems follow, each numbered statement of the specification with what
    the code does about it. *)

From Stdlib Require Import String ZArith Arith PeanoNat Bool Lia List.
From Stdlib Require Import Floats.SpecFloat.
Import ListNotations.
Open Scope Z_scope.

Set Implicit Arguments.

(* ================================================================== *)
(** * Exceptions and results *)
(* ================================================================== *)

(** The exceptions the modelled code can raise. *)
Inductive exn : Type :=
| StructError                 (* struct.error *)
| DecodeError                 (* google.protobuf.message.DecodeError *)
| ValueError
| IndexError
| TypeError
| AssertionError
| NameError (name : string)
| ModelError.                 (* anything the external model raises *)

Definition result (A : Type) : Type := (exn + A)%type.

Definition ret {A} (a : A) : result A := inr a.
Definition raise {A} (e : exn) : result A := inl e.
Definition bind {A B} (r : result A) (k : A -> result B) : result B :=
  match r with
  | inl e => inl e
  | inr a => k a
  end.

Declare Scope res_scope.
Delimit Scope res_scope with res.
Notation "x <- r ;; k" := (bind r (fun x => k))
  (at level 61, r at next level, right associativity) : res_scope.
Notation "' p <- r ;; k" := (bind r (fun x => let p := x in k))
  (at level 61, p pattern, r at next level, right associativity) : res_scope.

(** [assert cond] *)
Definition py_assert (cond : bool) : result unit :=
  if cond then ret tt else raise AssertionError.

(* ================================================================== *)
(** * Bytes and fixed-width integers *)
(* ================================================================== *)

(** A byte is an integer in [0, 256). *)
Definition byte := Z.
Definition bytes := list byte.

Definition is_byte (b : byte) : Prop := 0 <= b < 256.

(** Two's complement reading of the low 16, 32 and 64 bits. *)
Definition wrap16 (v : Z) : Z := (v + 32768) mod 65536 - 32768.
Definition wrap32 (v : Z) : Z := (v + 2147483648) mod 4294967296 - 2147483648.
Definition wrap64 (v : Z) : Z := (v + 2 ^ 63) mod 2 ^ 64 - 2 ^ 63.

Definition in_int16 (v : Z) : bool := (-32768 <=? v) && (v <=? 32767).
Definition in_int32 (v : Z) : bool := (-2147483648 <=? v) && (v <=? 2147483647).

(** The two bytes of a [">i2"] element: the low 16 bits, high byte first. *)
Definition int16_be (v : Z) : bytes :=
  [ (v mod 65536) / 256 ; v mod 256 ].

(** Reading a [">i2"] element back. *)
Definition int16_of_be (bs : bytes) : option Z :=
  match bs with
  | [hi; lo] => Some (wrap16 (hi * 256 + lo))
  | _ => None
  end.

(** [struct.pack(">i", n)]: raises [struct.error] outside the int32 range. *)
Definition struct_pack_i (n : Z) : result bytes :=
  if in_int32 n then
    ret [ (n mod 4294967296) / 16777216 ;
          (n / 65536) mod 256 ;
          (n / 256) mod 256 ;
          n mod 256 ]
  else raise StructError.

(** [struct.unpack(">i", b)[0]]: raises [struct.error] unless [b] has
    exactly four bytes. *)
Definition struct_unpack_i (b : bytes) : result Z :=
  match b with
  | [b0; b1; b2; b3] =>
      ret (wrap32 (b0 * 16777216 + b1 * 65536 + b2 * 256 + b3))
  | _ => raise StructError
  end.

(* ================================================================== *)
(** * float32 *)
(* ================================================================== *)

Module F32.

Definition prec : Z := 24.
Definition emax : Z := 128.

Definition t : Type := spec_float.

Definition add : t -> t -> t := SFadd prec emax.
Definition sub : t -> t -> t := SFsub prec emax.
Definition mul : t -> t -> t := SFmul prec emax.
Definition div : t -> t -> t := SFdiv prec emax.
Definition sqrt : t -> t := SFsqrt prec emax.

(** The float32 nearest to an integer. *)
Definition of_Z (n : Z) : t := binary_normalize prec emax n 0 false.

Definition zero : t := S754_zero false.
Definition one : t := of_Z 1.

(** A bool cast to float32, as numpy does when a float array is
    multiplied by a bool array. *)
Definition of_bool (b : bool) : t := if b then one else zero.

(** The value whose IEEE 754 binary32 encoding is the 32-bit pattern
    [b] (NaN payloads are not kept). *)
Definition of_bits (b : Z) : t :=
  let s := Z.testbit b 31 in
  let e := (b / 8388608) mod 256 in
  let m := b mod 8388608 in
  if e =? 0 then
    match m with
    | Zpos p => S754_finite s p (-149)
    | _ => S754_zero s
    end
  else if e =? 255 then
    if m =? 0 then S754_infinity s else S754_nan
  else
    match m + 8388608 with
    | Zpos p => S754_finite s p (e - 150)
    | _ => S754_nan
    end.

(** Truncation toward zero of a finite value; nothing for NaN and the
    infinities. *)
Definition trunc (x : t) : option Z :=
  match x with
  | S754_zero _ => Some 0
  | S754_finite s m e =>
      let mag := Z.shiftl (Zpos m) e in
      Some (if s then - mag else mag)
  | S754_infinity _ | S754_nan => None
  end.

Definition is_nan (x : t) : bool :=
  match x with S754_nan => true | _ => false end.
Definition is_inf (x : t) : bool :=
  match x with S754_infinity _ => true | _ => false end.
Definition is_zero (x : t) : bool :=
  match x with S754_zero _ => true | _ => false end.

(** [x.astype(np.int16)] on one float32 element.  In range this is the C
    conversion, truncation toward zero.  Out of range the C conversion is
    undefined; what is written here is what numpy's x86-64 builds
    compute: the value is converted to a 32-bit integer ([cvttss2si],
    which yields [0x80000000] for NaN and for values outside the int32
    range) and its low 16 bits are kept. *)
Definition astype_int16 (x : t) : Z :=
  match trunc x with
  | Some v => if in_int32 v then wrap16 v else 0
  | None => 0
  end.

End F32.

(* ================================================================== *)
(** * numpy arrays *)
(* ================================================================== *)

(** An n-dimensional array: its shape and its elements in row-major
    (C-contiguous) order. *)
Record ndarray (A : Type) : Type := mk_ndarray {
  shape : list nat;
  elems : list A
}.

(** Number of elements a shape holds. *)
Definition size (sh : list nat) : nat := fold_right Nat.mul 1%nat sh.

(** numpy only builds arrays that hold as many elements as their shape says. *)
Definition wf {A} (a : ndarray A) : Prop :=
  length (elems a) = size (shape a).

(** Element-wise operations keep the shape. *)
Definition amap {A B} (f : A -> B) (a : ndarray A) : ndarray B :=
  mk_ndarray (shape a) (map f (elems a)).

(** [map] for a function that can raise: the first exception wins. *)
Fixpoint map_result {A B} (f : A -> result B) (l : list A) : result (list B) :=
  match l with
  | [] => ret []
  | a :: l' =>
      (b <- f a ;;
       bs <- map_result f l' ;;
       ret (b :: bs))%res
  end.

(** [map] with the position of each element. *)
Definition mapi {A B} (f : nat -> A -> B) (l : list A) : list B :=
  map (fun p => f (fst p) (snd p)) (combine (seq 0 (length l)) l).

(** ** Construction from a buffer, reshaping *)

(** The 32-bit big-endian words of a buffer; nothing when its length is not
    a multiple of four. *)
Fixpoint words_be (bs : bytes) : option (list Z) :=
  match bs with
  | [] => Some []
  | b0 :: b1 :: b2 :: b3 :: rest =>
      option_map (cons (b0 * 16777216 + b1 * 65536 + b2 * 256 + b3))
                 (words_be rest)
  | _ => None
  end.

(** [np.frombuffer(data, dtype=">f4").astype("float32")]: a one-dimensional
    float32 array; [ValueError] when the buffer size is not a multiple of
    the element size. *)
Definition np_frombuffer_f4 (data : bytes) : result (ndarray F32.t) :=
  match words_be data with
  | Some ws => ret (mk_ndarray [length ws] (map F32.of_bits ws))
  | None => raise ValueError
  end.

(** [a.reshape(dims)].  A negative entry of [dims] is an unknown dimension
    that numpy infers from the others; there may be one.  Without one the
    product of [dims] must be the number of elements; with one the product
    of the others must be non-zero and divide it.  Everything else is a
    [ValueError]. *)
Definition np_reshape {A} (a : ndarray A) (dims : list Z) : result (ndarray A) :=
  let s_original := Z.of_nat (length (elems a)) in
  let s_known := fold_right Z.mul 1 (filter (fun d => 0 <=? d) dims) in
  match length (filter (fun d => d <? 0) dims) with
  | O =>
      if s_original =? s_known
      then ret (mk_ndarray (map Z.to_nat dims) (elems a))
      else raise ValueError
  | S O =>
      if (s_known =? 0) || negb (s_original mod s_known =? 0)
      then raise ValueError
      else ret (mk_ndarray
                  (map (fun d => Z.to_nat (if d <? 0 then s_original / s_known else d)) dims)
                  (elems a))
  | _ => raise ValueError
  end.

(** ** Reductions *)

(** [a.max()]: [ValueError] on an array without elements. *)
Definition np_max (a : ndarray Z) : result Z :=
  match elems a with
  | [] => raise ValueError
  | v :: vs => ret (fold_left Z.max vs v)
  end.

(** [len(a)]: the first dimension; [TypeError] on a 0-dimensional array. *)
Definition np_len {A} (a : ndarray A) : result nat :=
  match shape a with
  | [] => raise TypeError
  | n :: _ => ret n
  end.

(** [a.shape[i]]: [IndexError] past the last dimension. *)
Definition shape_at {A} (a : ndarray A) (i : nat) : result Z :=
  match nth_error (shape a) i with
  | Some d => ret (Z.of_nat d)
  | None => raise IndexError
  end.

(** The float32 sum of the elements, accumulated from the left.  That is
    the order numpy adds in for fewer than eight elements; from eight on it
    adds pairwise in blocks, which can round differently.  The theorems
    below that speak of a mean or a standard deviation take its computed
    value as a hypothesis, and the sums of the examples are exact in any
    order. *)
Definition np_sum (l : list F32.t) : F32.t := fold_left F32.add l F32.zero.

(** The number of elements, as the float32 a sum is divided by. *)
Definition count {A} (a : ndarray A) : F32.t :=
  F32.of_Z (Z.of_nat (length (elems a))).

(** [a.mean()] *)
Definition np_mean (a : ndarray F32.t) : F32.t :=
  F32.div (np_sum (elems a)) (count a).

(** [a.std()]: the population standard deviation,
    [sqrt(mean((a - a.mean())**2))]. *)
Definition np_std (a : ndarray F32.t) : F32.t :=
  let arrmean := np_mean a in
  let x := map (fun v => F32.sub v arrmean) (elems a) in
  let x := map (fun v => F32.mul v v) x in
  F32.sqrt (F32.div (np_sum x) (count a)).

(** ** Indexing with an integer array *)

(** Python's index into a sequence of [n] elements: a negative index
    counts from the end. *)
Definition py_index (n : nat) (i : Z) : nat :=
  Z.to_nat (if i <? 0 then i + Z.of_nat n else i).

(** [a[idx]] for an integer array [idx]: every entry of [idx] selects a row
    of [a] along its first axis.  An entry [i] with [-n <= i < 0] counts
    from the end; an entry outside [-n, n) raises [IndexError], and so does
    indexing a 0-dimensional array. *)
Definition np_take {A} (a : ndarray A) (idx : ndarray Z) : result (ndarray A) :=
  match shape a with
  | [] => raise IndexError
  | n :: rest =>
      let rs := size rest in
      let row (i : Z) : result (list A) :=
        if (- Z.of_nat n <=? i) && (i <? Z.of_nat n) then
          ret (firstn rs (skipn (py_index n i * rs) (elems a)))
        else raise IndexError in
      (rows <- map_result row (elems idx) ;;
       ret (mk_ndarray (shape idx ++ rest) (concat rows)))%res
  end.

(** ** Broadcasting *)

(** The multi-index of position [k] in an array of shape [sh], and back. *)
Fixpoint unravel (sh : list nat) (k : nat) : list nat :=
  match sh with
  | [] => []
  | _ :: sh' => (k / size sh')%nat :: unravel sh' (k mod size sh')%nat
  end.

Fixpoint ravel (sh : list nat) (ix : list nat) : nat :=
  match sh, ix with
  | _ :: sh', i :: ix' => (i * size sh' + ravel sh' ix')%nat
  | _, _ => O
  end.

(** Shape [sb] can be broadcast to shape [sa]: aligned at the last
    dimension, every dimension of [sb] is 1 or the dimension of [sa]. *)
Definition broadcastable_to (sb sa : list nat) : bool :=
  (length sb <=? length sa)%nat &&
  forallb (fun p => (fst p =? 1)%nat || (fst p =? snd p)%nat)
          (combine sb (skipn (length sa - length sb) sa)).

(** The position in an array of shape [sb] that is read for position [k]
    of the array of shape [sa] it is broadcast to. *)
Definition bcast_index (sa sb : list nat) (k : nat) : nat :=
  let ix := skipn (length sa - length sb) (unravel sa k) in
  ravel sb (map (fun p => if (fst p =? 1)%nat then O else snd p) (combine sb ix)).

(** [a *= b] for a float32 array [a] and a bool array [b]: [b] is broadcast
    to the shape of [a] ([ValueError] when it cannot be) and cast to
    float32. *)
Definition np_imul_mask (a : ndarray F32.t) (b : ndarray bool)
  : result (ndarray F32.t) :=
  if broadcastable_to (shape b) (shape a) then
    ret (mk_ndarray (shape a)
           (mapi (fun k v =>
                    F32.mul v (F32.of_bool
                                 (nth (bcast_index (shape a) (shape b) k) (elems b) false)))
                 (elems a)))
  else raise ValueError.

(* ================================================================== *)
(** * Messages *)
(* ================================================================== *)

(** Modelled from the spec: the message classes of [lacss_pb2], which is
    generated code that is not among the sources.  The fields are those of
    the schema in the specification's section on external interfaces;
    the [int32] fields hold integers, the [bytes] fields byte buffers. *)
Record Image : Type := mk_Image {
  im_height : Z;
  im_width : Z;
  im_channel : Z;
  im_data : bytes
}.

Record Input (Settings : Type) : Type := mk_Input {
  image : Image;
  settings : Settings
}.

Record IntMatrix : Type := mk_IntMatrix {
  height : Z;
  width : Z;
  data : bytes
}.

Record Result : Type := mk_Result {
  label : IntMatrix;
  score : IntMatrix
}.

Record Point : Type := mk_Point {
  x : F32.t;
  y : F32.t
}.

Record Polygon : Type := mk_Polygon {
  pg_score : F32.t;
  points : list Point
}.

Record PolygonResult : Type := mk_PolygonResult {
  polygons : list Polygon
}.

(** Assigning to an [int32] field: protobuf raises [ValueError] for a value
    out of range. *)
Definition set_int32 (v : Z) : result Z :=
  if in_int32 v then ret v else raise ValueError.

(* ================================================================== *)
(** * img_to_msg *)
(* ================================================================== *)

(** [np.ascontiguousarray(img, dtype=">i2")]: at least one dimension, and
    every element cast to int16.  The cast of an integer array is numpy's
    unchecked one: the low 16 bits are kept. *)
Definition ascontiguousarray_i2 (img : ndarray Z) : ndarray Z :=
  mk_ndarray (match shape img with [] => [1%nat] | sh => sh end)
             (map wrap16 (elems img)).

(** [img.tobytes()] of a [">i2"] array. *)
Definition tobytes_i2 (img : ndarray Z) : bytes :=
  flat_map int16_be (elems img).

(** [img_to_msg(msg, img)] fills the three fields of the sub-message [msg];
    the embedding returns the sub-message. *)
Definition img_to_msg (img : ndarray Z) : result IntMatrix :=
  (let img := ascontiguousarray_i2 img in
   h <- shape_at img 0 ;;
   h <- set_int32 h ;;
   w <- shape_at img 1 ;;
   w <- set_int32 w ;;
   let d := tobytes_i2 img in
   _ <- py_assert (Z.of_nat (length d) =? h * w * 2) ;;
   ret (mk_IntMatrix h w d))%res.

(** The message [write_result] builds before it serialises it:
    [(score * 1000).astype(np.int16)] goes to [msg.score], then [label] to
    [msg.label]. *)
Definition quantize (s : F32.t) : Z :=
  F32.astype_int16 (F32.mul s (F32.of_Z 1000)).

Definition result_msg (label : ndarray Z) (score : ndarray F32.t) : result Result :=
  (msg_score <- img_to_msg (amap quantize score) ;;
   msg_label <- img_to_msg label ;;
   ret (mk_Result msg_label msg_score))%res.

(* ================================================================== *)
(** * The process and its streams *)
(* ================================================================== *)

(** What the process lets the outside see, in program order. *)
Inductive event : Type :=
| EvPrint (line : string)                  (* print(...): text on sys.stdout *)
| EvPrintErr (line : string) (sh : list nat) (* print(f"... {img.shape}", file=sys.stderr) *)
| EvWrite (bs : bytes)                     (* sys.stdout.buffer.write(bs) *)
| EvEval (img : ndarray F32.t).            (* model.eval(img) is called *)

(** The bytes still to come on [sys.stdin.buffer] before it closes, and the
    events so far. *)
Record world : Type := mk_world {
  stdin : bytes;
  trace : list event
}.

Definition M (A : Type) : Type := world -> result A * world.

Definition mret {A} (a : A) : M A := fun w => (ret a, w).
Definition mbind {A B} (m : M A) (k : A -> M B) : M B :=
  fun w =>
    match m w with
    | (inl e, w') => (inl e, w')
    | (inr a, w') => k a w'
    end.
Definition lift {A} (r : result A) : M A := fun w => (r, w).

Declare Scope io_scope.
Delimit Scope io_scope with io.
Notation "x <- m ;; k" := (mbind m (fun x => k))
  (at level 61, m at next level, right associativity) : io_scope.
Notation "m ;; k" := (mbind m (fun _ => k))
  (at level 61, right associativity) : io_scope.

Definition emit (e : event) : M unit :=
  fun w => (ret tt, mk_world (stdin w) (trace w ++ [e])).

(** [st.read(n)] on the buffered standard input: blocks until [n] bytes
    have come or the stream has closed, so it returns fewer than [n] bytes
    only at the end of the stream; [-1] reads to the end and a size below
    [-1] is a [ValueError]. *)
Definition st_read (n : Z) : M bytes :=
  fun w =>
    if n <? -1 then (raise ValueError, w)
    else if n =? -1 then (ret (stdin w), mk_world [] (trace w))
    else (ret (firstn (Z.to_nat n) (stdin w)),
          mk_world (skipn (Z.to_nat n) (stdin w)) (trace w)).

(** [st.write(bs)] on the buffered standard output.  The write is taken to
    succeed: a standard output that fails under the server is outside the
    embedding. *)
Definition st_write (bs : bytes) : M unit := emit (EvWrite bs).

(** The names bound at module level in [server.py] (imports and [def]s). *)
Definition module_globals : list string :=
  [ "struct"; "sys"; "Path"; "ZipFile"; "jax"; "jnp"; "np"; "typer";
    "lacss_pb2"; "patches_to_label"; "sorted_non_max_suppression";
    "Predictor"; "models"; "io"; "app";
    "read_input"; "img_to_msg"; "write_result"; "write_polygon_result";
    "main" ]%string.

(** Reading a global name that no import or definition binds is a
    [NameError]. *)
Definition load_global (name : string) : result unit :=
  if existsb (String.eqb name) module_globals
  then ret tt
  else raise (NameError name).

Fixpoint shape_eqb (s1 s2 : list nat) : bool :=
  match s1, s2 with
  | [], [] => true
  | a :: s1', b :: s2' => (a =? b)%nat && shape_eqb s1' s2'
  | _, _ => false
  end.

(** The two statements of [main] that normalise the image:
    [img -= img.mean()], then [img = img / img.std()]. *)
Definition centred (img : ndarray F32.t) : ndarray F32.t :=
  amap (fun v => F32.sub v (np_mean img)) img.

Definition normalize (img : ndarray F32.t) : ndarray F32.t :=
  let img := centred img in
  amap (fun v => F32.div v (np_std img)) img.

(** [label > 0] and [label - 1] on an int64 array. *)
Definition positive_mask (label : ndarray Z) : ndarray bool :=
  amap (fun v => 0 <? v) label.
Definition minus_one (label : ndarray Z) : ndarray Z :=
  amap (fun v => wrap64 (v - 1)) label.

(** The score image of [main]: [scores[label - 1]], then
    [score_img *= (label > 0)]. *)
Definition score_image (scores : ndarray F32.t) (label : ndarray Z)
  : result (ndarray F32.t) :=
  (score_img <- np_take scores (minus_one label) ;;
   np_imul_mask score_img (positive_mask label))%res.

(** How a run of [main] stands: still in its loop, returned, or ended by an
    exception that nothing caught. *)
Inductive outcome : Type :=
| Running
| Returned
| Raised (e : exn).

Section Server.

(** The type of [Input.settings], which the server never looks into. *)
Variable Settings : Type.

(** [lacss_pb2.Input().ParseFromString]: the message a frame body
    decodes to, or nothing when protobuf raises [DecodeError]. *)
Variable ParseFromString : bytes -> option (Input Settings).

(** [SerializeToString] of a [Result] and of a [PolygonResult];
    [ByteSize()] is the length of what it returns. *)
Variable SerializeResult : Result -> bytes.
Variable SerializePolygonResult : PolygonResult -> bytes.

(** [model.eval(img)] of the loaded Cellpose model: the masks and the
    list of flows it returns, or the exception it raises. *)
Variable model_eval : ndarray F32.t -> result (ndarray Z * list (ndarray F32.t)).

Definition read_input : M (ndarray F32.t * Settings) :=
  (msg_size <- st_read 4 ;;
   msg_size <- lift (struct_unpack_i msg_size) ;;
   body <- st_read msg_size ;;
   msg <- lift (match ParseFromString body with
                | Some msg => ret msg
                | None => raise DecodeError
                end) ;;
   let image := image msg in
   np_img <- lift (np_frombuffer_f4 (im_data image)) ;;
   np_img <- lift (np_reshape np_img
                     [im_height image; im_width image; im_channel image]) ;;
   mret (np_img, settings msg))%io.

Definition write_result (label : ndarray Z) (score : ndarray F32.t) : M unit :=
  (msg <- lift (result_msg label score) ;;
   let body := SerializeResult msg in
   msg_size_bits <- lift (struct_pack_i (Z.of_nat (length body))) ;;
   st_write msg_size_bits ;;
   st_write body)%io.

(** The loop of [write_polygon_result] over [zip(polygons, scores)]. *)
Fixpoint points_loop (polygon : list (F32.t * F32.t)) (acc : list Point)
  : result (list Point) :=
  match polygon with
  | [] => ret acc
  | p :: polygon' =>
      (_ <- load_global "LacssMsg" ;;           (* LacssMsg.Point() *)
       let point := mk_Point (fst p) (snd p) in
       points_loop polygon' (acc ++ [point]))%res
  end.

Fixpoint polygons_loop (pairs : list (list (F32.t * F32.t) * F32.t))
                       (msg : PolygonResult) : result PolygonResult :=
  match pairs with
  | [] => ret msg
  | (polygon, score) :: pairs' =>
      if (1 <? length polygon)%nat then
        (_ <- load_global "LacssMsg" ;;         (* LacssMsg.Polygon() *)
         pts <- points_loop polygon [] ;;
         let polygon_msg := mk_Polygon score pts in
         polygons_loop pairs' (mk_PolygonResult (polygons msg ++ [polygon_msg])))%res
      else polygons_loop pairs' msg
  end.

Definition write_polygon_result (polygons : list (list (F32.t * F32.t)))
                                (scores : list F32.t) : M unit :=
  (msg <- lift (polygons_loop (combine polygons scores) (mk_PolygonResult [])) ;;
   let body := SerializePolygonResult msg in
   msg_size_bits <- lift (struct_pack_i (Z.of_nat (length body))) ;;
   st_write msg_size_bits ;;
   st_write body)%io.

(** One turn of the [while True] loop of [main]. *)
Definition serve_cycle : M unit :=
  (r <- read_input ;;
   let img := normalize (fst r) in
   emit (EvPrintErr "received image" (shape img)) ;;
   emit (EvEval img) ;;
   out <- lift (model_eval img) ;;
   let label := amap wrap64 (fst out) in                 (* masks.astype("int") *)
   scores <- lift (match nth_error (snd out) 2 with      (* flows[:][2] *)
                   | Some s => ret s
                   | None => raise IndexError
                   end) ;;
   m <- lift (np_max label) ;;
   n <- lift (np_len scores) ;;
   lift (py_assert (m =? Z.of_nat n)) ;;
   lift (py_assert (length (shape label) =? 2)%nat) ;;
   score_img <- lift (score_image scores label) ;;
   lift (py_assert (shape_eqb (shape score_img) (shape label))) ;;
   emit (EvPrint "cellpose_server: Made prediction... trying to send pred...") ;;
   write_result label score_img)%io.

(** The loop of [main], run for at most [fuel] turns.  The loop has no
    [break] and no [return]: it ends only when a turn raises. *)
Fixpoint main_loop (fuel : nat) (w : world) : outcome * world :=
  match fuel with
  | O => (Running, w)
  | S fuel' =>
      match serve_cycle w with
      | (inl e, w') => (Raised e, w')
      | (inr _, w') => main_loop fuel' w'
      end
  end.

(** [main], once the model is loaded. *)
Definition main (fuel : nat) (w : world) : outcome * world :=
  match emit (EvPrint "cellpose_server: loaded model defualt Cyto Model") w with
  | (inl e, w') => (Raised e, w')
  | (inr _, w') => main_loop fuel w'
  end.

End Server.

(* ================================================================== *)
(** * Notions used in the statements *)
(* ================================================================== *)

(** No polygon that [zip] pairs with a score has more than one point. *)
Definition all_degenerate (pairs : list (list (F32.t * F32.t) * F32.t)) : bool :=
  forallb (fun p => (length (fst p) <=? 1)%nat) pairs.

(** A float32 value is well formed when its mantissa and exponent are the
    canonical ones of binary32. *)
Definition valid (v : F32.t) : bool := valid_binary F32.prec F32.emax v.

(** A zero or NaN, and a finite value (a zero or a finite number). *)
Definition zero_or_nan (v : F32.t) : bool := F32.is_zero v || F32.is_nan v.
Definition finite (v : F32.t) : bool := negb (F32.is_nan v) && negb (F32.is_inf v).

(** NaN or an infinity. *)
Definition nan_or_inf (v : F32.t) : bool := F32.is_nan v || F32.is_inf v.

(** A computation that only ever adds events to the trace. *)
Definition appends {A} (m : M A) : Prop :=
  forall w, exists tr, trace (snd (m w)) = trace w ++ tr.

(** A computation that leaves standard input where it is. *)
Definition reads_nothing {A} (m : M A) : Prop :=
  forall w, stdin (snd (m w)) = stdin w.

(** [bind_inv H] splits a [bind] that is known to return. *)
Ltac bind_inv H :=
  match type of H with
  | bind ?r _ = inr _ =>
      let E := fresh "E" in
      destruct r eqn:E; simpl in H; [discriminate H|]
  end.


(** The big-endian 32-bit word of four bytes. *)
Definition word_be (b0 b1 b2 b3 : byte) : Z :=
  b0 * 16777216 + b1 * 65536 + b2 * 256 + b3.

Section Decoding.

Variable Settings : Type.
Variable ParseFromString : bytes -> option (Input Settings).

(** What [read_input] makes of a frame body once it has read it: the
    statements after [st.read(msg_size)]. *)
Definition decode_body (body : bytes) : result (ndarray F32.t * Settings) :=
  (msg <- match ParseFromString body with
          | Some msg => ret msg
          | None => raise DecodeError
          end ;;
   np_img <- np_frombuffer_f4 (im_data (image msg)) ;;
   np_img <- np_reshape np_img
               [im_height (image msg); im_width (image msg); im_channel (image msg)] ;;
   ret (np_img, settings msg))%res.

End Decoding.

Section Answering.

Variable SerializeResult : Result -> bytes.

(** What a turn does with what [model.eval] returned: the statements of
    the loop from [label = masks.astype("int")] to [write_result]. *)
Definition answer (out : ndarray Z * list (ndarray F32.t)) : M unit :=
  (let label := amap wrap64 (fst out) in
   scores <- lift (match nth_error (snd out) 2 with
                   | Some s => ret s
                   | None => raise IndexError
                   end) ;;
   m <- lift (np_max label) ;;
   n <- lift (np_len scores) ;;
   lift (py_assert (m =? Z.of_nat n)) ;;
   lift (py_assert (length (shape label) =? 2)%nat) ;;
   score_img <- lift (score_image scores label) ;;
   lift (py_assert (shape_eqb (shape score_img) (shape label))) ;;
   emit (EvPrint "cellpose_server: Made prediction... trying to send pred...") ;;
   write_result SerializeResult label score_img)%io.

End Answering.

(** The pixels of the score image for labels [ls] and scores [sc]: the
    score of the instance, and [scores[-1] * 0.0] on the background. *)
Definition score_pixels (sc : list F32.t) (ls : list Z) : list F32.t :=
  map (fun v => if 0 <? v
                then nth (Z.to_nat (v - 1)) sc F32.zero
                else F32.mul (nth (length sc - 1) sc F32.zero) F32.zero) ls.

(* ================================================================== *)
(** * Sample data *)
(* ================================================================== *)

(** Concrete arrays, messages and collaborators for the examples. *)

Definition f32_0_5 : F32.t := F32.of_bits 1056964608.    (* 0x3F000000 *)
Definition f32_0_25 : F32.t := F32.of_bits 1048576000.   (* 0x3E800000 *)
Definition f32_40 : F32.t := F32.of_bits 1109393408.     (* 0x42200000 *)

(** The float32 encodings of 1.0 and 2.0. *)
Definition bytes_1_0 : bytes := [63; 128; 0; 0].
Definition bytes_2_0 : bytes := [64; 0; 0; 0].

(** A 1x1 label matrix and a 1x1 score matrix. *)
Definition label_1x1 (v : Z) : ndarray Z := mk_ndarray [1%nat; 1%nat] [v].
Definition score_1x1 (s : F32.t) : ndarray F32.t := mk_ndarray [1%nat; 1%nat] [s].

(** A 2x2 label matrix with two instances, the scores of the two, and the
    score image of the two. *)
Definition label_2x2 : ndarray Z := mk_ndarray [2%nat; 2%nat] [0; 1; 1; 2].
Definition scores_2 : ndarray F32.t := mk_ndarray [2%nat] [f32_0_5; f32_0_25].
Definition score_2x2 : ndarray F32.t :=
  mk_ndarray [2%nat; 2%nat] [F32.zero; f32_0_5; f32_0_5; f32_0_25].

(** Scores that are not one-dimensional: one row of three values. *)
Definition scores_1x3 : ndarray F32.t :=
  mk_ndarray [1%nat; 3%nat] [f32_0_5; f32_0_5; f32_0_25].

(** No instance at all: the scores that go with an all-background label. *)
Definition scores_none : ndarray F32.t := mk_ndarray [0%nat] [].


(** An [Input] carrying the 1x2x1 image [1.0, 2.0], and that image. *)
Definition input_two_pixels : Input unit :=
  mk_Input (mk_Image 1 2 1 (bytes_1_0 ++ bytes_2_0)) tt.
Definition two_pixels : ndarray F32.t :=
  mk_ndarray [1%nat; 2%nat; 1%nat] [F32.of_bits 1065353216; F32.of_bits 1073741824].

(** An [Input] carrying a 4x4x1 image of all 1.0, that image, and the
    4x4x1 image of all NaN. *)
Definition input_ones_4x4 : Input unit :=
  mk_Input (mk_Image 4 4 1 (concat (repeat bytes_1_0 16))) tt.
Definition ones_4x4 : ndarray F32.t :=
  mk_ndarray [4%nat; 4%nat; 1%nat] (repeat F32.one 16).
Definition nan_4x4 : ndarray F32.t :=
  mk_ndarray [4%nat; 4%nat; 1%nat] (repeat S754_nan 16).

(** A polygon of two points and a polygon of one. *)
Definition segment : list (F32.t * F32.t) :=
  [(F32.zero, F32.zero); (F32.one, F32.one)].
Definition single_point : list (F32.t * F32.t) := [(F32.zero, F32.zero)].

(** Stand-ins for protobuf and for the model.  A parser that rejects every
    frame body and one that decodes every body to a given message; a
    [Result] serialiser that lays the two data buffers end to end, the
    score first; a [PolygonResult] serialiser for a message in which no
    field is set, which protobuf serialises to the empty string; a model
    that raises and one that returns given masks and flows, the scores
    being the third of the flows. *)
Definition parse_nothing : bytes -> option (Input unit) := fun _ => None.
Definition parse_as (msg : Input unit) : bytes -> option (Input unit) :=
  fun _ => Some msg.
Definition concat_buffers (r : Result) : bytes :=
  data (score r) ++ data (label r).
Definition serialize_unset (msg : PolygonResult) : bytes := [].
Definition model_raises
  : ndarray F32.t -> result (ndarray Z * list (ndarray F32.t)) :=
  fun _ => raise ModelError.
Definition model_returns (masks : ndarray Z) (flows : list (ndarray F32.t))
  : ndarray F32.t -> result (ndarray Z * list (ndarray F32.t)) :=
  fun _ => ret (masks, flows).
Definition flows_with (scores : ndarray F32.t) : list (ndarray F32.t) :=
  [mk_ndarray [] []; mk_ndarray [] []; scores].

(* ================================================================== *)
(** * Integers on the wire *)
(* ================================================================== *)

Lemma wrap16_in_range v : in_int16 v = true -> wrap16 v = v.
Proof.
  unfold in_int16, wrap16. intros H.
  apply andb_prop in H. destruct H as [H1 H2].
  apply Z.leb_le in H1. apply Z.leb_le in H2.
  rewrite Z.mod_small by lia. lia.
Qed.

Lemma wrap16_range v : in_int16 (wrap16 v) = true.
Proof.
  unfold in_int16, wrap16. apply andb_true_intro.
  split; apply Z.leb_le; Z.to_euclidean_division_equations; lia.
Qed.

(** Only the low 16 bits of a value reach the wire. *)
Lemma int16_be_wrap16 v : int16_be (wrap16 v) = int16_be v.
Proof.
  unfold int16_be, wrap16.
  f_equal; [|f_equal]; Z.to_euclidean_division_equations; lia.
Qed.

Lemma int16_of_be_int16_be v : int16_of_be (int16_be v) = Some (wrap16 v).
Proof.
  unfold int16_of_be, int16_be, wrap16. f_equal.
  Z.to_euclidean_division_equations; lia.
Qed.

Lemma int16_be_bytes v : Forall is_byte (int16_be v).
Proof.
  unfold int16_be, is_byte.
  repeat constructor; Z.to_euclidean_division_equations; lia.
Qed.

Lemma tobytes_i2_length (l : list Z) :
  length (flat_map int16_be l) = (2 * length l)%nat.
Proof.
  induction l as [|v l IH]; simpl; [reflexivity|]. rewrite IH. lia.
Qed.

(** Element [k] of a [">i2"] buffer sits in bytes [2k] and [2k+1]. *)
Lemma tobytes_i2_nth (l : list Z) : forall k v,
  nth_error l k = Some v ->
  firstn 2 (skipn (2 * k) (flat_map int16_be l)) = int16_be v.
Proof.
  induction l as [|a l IH]; intros k v H.
  - destruct k; discriminate.
  - destruct k as [|k].
    + simpl in H. injection H as ->. reflexivity.
    + simpl in H. replace (2 * S k)%nat with (S (S (2 * k))) by lia.
      simpl flat_map. simpl skipn. apply IH. exact H.
Qed.

(* ================================================================== *)
(** * The sub-messages img_to_msg builds *)
(* ================================================================== *)

Lemma set_int32_inv v v' : set_int32 v = inr v' -> v' = v /\ in_int32 v = true.
Proof.
  unfold set_int32. destruct (in_int32 v); [|discriminate].
  intros H. injection H as <-. auto.
Qed.

Lemma py_assert_inv c u : py_assert c = inr u -> c = true.
Proof. destruct c; [reflexivity|discriminate]. Qed.

(** What a sub-message holds when [img_to_msg] returns: the first two
    dimensions of the array, the big-endian low 16 bits of every element,
    and a data length that the final [assert] has checked. *)
Lemma img_to_msg_inv (img : ndarray Z) (msg : IntMatrix) :
  img_to_msg img = inr msg ->
  data msg = flat_map int16_be (map wrap16 (elems img)) /\
  shape_at (ascontiguousarray_i2 img) 0 = inr (height msg) /\
  shape_at (ascontiguousarray_i2 img) 1 = inr (width msg) /\
  Z.of_nat (length (data msg)) = height msg * width msg * 2.
Proof.
  unfold img_to_msg. intros H.
  bind_inv H. bind_inv H. bind_inv H. bind_inv H. bind_inv H.
  injection H as <-. simpl.
  apply set_int32_inv in E0, E2. destruct E0 as [-> _], E2 as [-> _].
  apply py_assert_inv, Z.eqb_eq in E3.
  repeat split; assumption.
Qed.

(** On a two-dimensional array whose dimensions fit an [int32] field,
    [img_to_msg] does not raise, whatever the elements are. *)
Lemma img_to_msg_2d (h w : nat) (vs : list Z) :
  length vs = (h * w)%nat ->
  Z.of_nat h <= 2147483647 ->
  Z.of_nat w <= 2147483647 ->
  img_to_msg (mk_ndarray [h; w] vs)
  = inr (mk_IntMatrix (Z.of_nat h) (Z.of_nat w)
                      (flat_map int16_be (map wrap16 vs))).
Proof.
  intros Hlen Hh Hw. unfold img_to_msg. simpl.
  unfold set_int32, in_int32.
  replace ((-2147483648 <=? Z.of_nat h) && (Z.of_nat h <=? 2147483647)) with true
    by (symmetry; apply andb_true_intro; split; apply Z.leb_le; lia).
  simpl.
  replace ((-2147483648 <=? Z.of_nat w) && (Z.of_nat w <=? 2147483647)) with true
    by (symmetry; apply andb_true_intro; split; apply Z.leb_le; lia).
  simpl.
  unfold tobytes_i2. simpl. rewrite tobytes_i2_length, length_map, Hlen.
  replace (Z.of_nat (2 * (h * w)) =? Z.of_nat h * Z.of_nat w * 2) with true
    by (symmetry; apply Z.eqb_eq; lia).
  reflexivity.
Qed.

Lemma result_msg_inv (lbl : ndarray Z) (scr : ndarray F32.t) (msg : Result) :
  result_msg lbl scr = inr msg ->
  img_to_msg (amap quantize scr) = inr (score msg) /\
  img_to_msg lbl = inr (label msg).
Proof.
  unfold result_msg. intros H. bind_inv H. bind_inv H.
  injection H as <-. simpl. auto.
Qed.

(* ================================================================== *)
(** * The Result message *)
(* ================================================================== *)

(** C8.  Every IntMatrix the encoder produces, label or score, holds
    [height * width * 2] bytes of data. *)
Theorem int_matrix_data_length (lbl : ndarray Z) (scr : ndarray F32.t) (msg : Result) :
  result_msg lbl scr = inr msg ->
  Z.of_nat (length (data (label msg))) = height (label msg) * width (label msg) * 2 /\
  Z.of_nat (length (data (score msg))) = height (score msg) * width (score msg) * 2.
Proof.
  intros H. apply result_msg_inv in H. destruct H as [Hs Hl].
  apply img_to_msg_inv in Hs, Hl.
  split; [apply Hl | apply Hs].
Qed.

Lemma int_matrix_data_length_witness :
  result_msg label_2x2 score_2x2
  = inr (mk_Result (mk_IntMatrix 2 2 [0; 0; 0; 1; 0; 1; 0; 2])
                   (mk_IntMatrix 2 2 [0; 0; 1; 244; 1; 244; 0; 250])) /\
  Z.of_nat (length [0; 0; 0; 1; 0; 1; 0; 2]) = 2 * 2 * 2 /\
  Z.of_nat (length [0; 0; 1; 244; 1; 244; 0; 250]) = 2 * 2 * 2.
Proof.
  split; [reflexivity|].
  apply (@int_matrix_data_length label_2x2 score_2x2
           (mk_Result (mk_IntMatrix 2 2 [0; 0; 0; 1; 0; 1; 0; 2])
                      (mk_IntMatrix 2 2 [0; 0; 1; 244; 1; 244; 0; 250]))).
  reflexivity.
Defined.

Lemma quantize_in_range (s : F32.t) (t : Z) :
  F32.trunc (F32.mul s (F32.of_Z 1000)) = Some t ->
  in_int16 t = true ->
  quantize s = t.
Proof.
  intros Ht Hr. unfold quantize, F32.astype_int16. rewrite Ht.
  assert (in_int32 t = true) as ->.
  { unfold in_int16 in Hr. unfold in_int32.
    apply andb_prop in Hr. destruct Hr as [H1 H2].
    apply Z.leb_le in H1. apply Z.leb_le in H2.
    apply andb_true_intro. split; apply Z.leb_le; lia. }
  apply wrap16_in_range. exact Hr.
Qed.

(** C1, as the code has it.  A score [s] whose scaled value [trunc(s*1000)]
    lies in the int16 range is written as that value, big-endian, in bytes
    [2k] and [2k+1] of the score data, [k] being its row-major position;
    read back as a [">i2"] element the two bytes give [trunc(s*1000)]. *)
Theorem score_quantized_big_endian
  (lbl : ndarray Z) (scr : ndarray F32.t) (msg : Result) (k : nat) (s : F32.t) (t : Z) :
  result_msg lbl scr = inr msg ->
  nth_error (elems scr) k = Some s ->
  F32.trunc (F32.mul s (F32.of_Z 1000)) = Some t ->
  in_int16 t = true ->
  firstn 2 (skipn (2 * k) (data (score msg))) = int16_be t /\
  int16_of_be (int16_be t) = Some t.
Proof.
  intros H Hk Ht Hr.
  apply result_msg_inv in H. destruct H as [Hs _].
  apply img_to_msg_inv in Hs. destruct Hs as [Hd _].
  split.
  - rewrite Hd. simpl.
    rewrite <- (wrap16_in_range t Hr) at 1.
    rewrite <- (quantize_in_range s Ht Hr) at 1.
    apply tobytes_i2_nth.
    rewrite map_map. rewrite nth_error_map, Hk. simpl.
    rewrite (quantize_in_range s Ht Hr). rewrite (wrap16_in_range t Hr).
    reflexivity.
  - rewrite int16_of_be_int16_be. f_equal. apply wrap16_in_range. exact Hr.
Qed.

Lemma score_quantized_big_endian_witness :
  firstn 2 (skipn (2 * 3) [0; 0; 1; 244; 1; 244; 0; 250]) = int16_be 250 /\
  int16_of_be (int16_be 250) = Some 250.
Proof.
  apply (@score_quantized_big_endian label_2x2 score_2x2
           (mk_Result (mk_IntMatrix 2 2 [0; 0; 0; 1; 0; 1; 0; 2])
                      (mk_IntMatrix 2 2 [0; 0; 1; 244; 1; 244; 0; 250]))
           3%nat f32_0_25 250); reflexivity.
Defined.

(** C1 fails as stated: the score 40.0 scales to 40000, which no int16
    holds; the two bytes written are 0x9C 0x40, which read back as -25536. *)
Lemma score_40_wraps :
  result_msg (label_1x1 1) (score_1x1 f32_40)
  = inr (mk_Result (mk_IntMatrix 1 1 [0; 1]) (mk_IntMatrix 1 1 [156; 64])) /\
  F32.trunc (F32.mul f32_40 (F32.of_Z 1000)) = Some 40000 /\
  int16_of_be [156; 64] = Some (-25536).
Proof. repeat split. Qed.

Section ResultFrame.

Variable SerializeResult : Result -> bytes.

Lemma struct_pack_i_ok (n : nat) :
  Z.of_nat n <= 2147483647 ->
  exists bits, struct_pack_i (Z.of_nat n) = inr bits /\ length bits = 4%nat.
Proof.
  intros H. unfold struct_pack_i, in_int32.
  replace ((-2147483648 <=? Z.of_nat n) && (Z.of_nat n <=? 2147483647)) with true
    by (symmetry; apply andb_true_intro; split; apply Z.leb_le; lia).
  eexists. split; reflexivity.
Qed.

(** C3, as the code has it.  Encoding a two-dimensional label matrix never
    fails because of a label value: whatever the values are, the label
    data holds the low 16 bits of every one, big-endian, and the frame is
    written.  (The dimensions and the size of the serialised message are
    taken to fit an int32.) *)
Theorem label_values_wrap_silently
  (h w : nat) (ls : list Z) (ss : list F32.t) (wd : world) :
  length ls = (h * w)%nat ->
  length ss = (h * w)%nat ->
  Z.of_nat h <= 2147483647 ->
  Z.of_nat w <= 2147483647 ->
  let msg :=
    mk_Result
      (mk_IntMatrix (Z.of_nat h) (Z.of_nat w) (flat_map int16_be (map wrap16 ls)))
      (mk_IntMatrix (Z.of_nat h) (Z.of_nat w)
                    (flat_map int16_be (map wrap16 (map quantize ss)))) in
  Z.of_nat (length (SerializeResult msg)) <= 2147483647 ->
  exists size_bits,
    struct_pack_i (Z.of_nat (length (SerializeResult msg))) = inr size_bits /\
    write_result SerializeResult (mk_ndarray [h; w] ls) (mk_ndarray [h; w] ss) wd
    = (inr tt,
       mk_world (stdin wd)
                (trace wd ++ [EvWrite size_bits; EvWrite (SerializeResult msg)])).
Proof.
  intros Hls Hss Hh Hw msg Hsize.
  destruct (struct_pack_i_ok _ Hsize) as [bits [Hbits _]].
  exists bits. split; [exact Hbits|].
  unfold write_result, mbind, lift, result_msg.
  unfold amap. simpl shape. simpl elems.
  rewrite (img_to_msg_2d h w (map quantize ss)) by (rewrite ?length_map; assumption).
  rewrite (img_to_msg_2d h w ls) by assumption.
  simpl bind. fold msg. unfold ret. cbv beta iota. rewrite Hbits.
  unfold st_write, emit. simpl. rewrite <- app_assoc. reflexivity.
Qed.

End ResultFrame.

Lemma label_values_wrap_silently_witness :
  exists size_bits,
    struct_pack_i 4 = inr size_bits /\
    write_result concat_buffers (label_1x1 40000) (score_1x1 f32_0_5) (mk_world [] [])
    = (inr tt, mk_world [] [EvWrite size_bits; EvWrite [1; 244; 156; 64]]).
Proof.
  apply (@label_values_wrap_silently concat_buffers 1 1 [40000] [f32_0_5] (mk_world [] []));
    simpl; try reflexivity; lia.
Defined.

(** C3 fails as stated: the label 32768 is encoded without any error, as
    the bytes 0x80 0x00, which read back as -32768. *)
Lemma label_32768_is_encoded :
  result_msg (label_1x1 32768) (score_1x1 F32.zero)
  = inr (mk_Result (mk_IntMatrix 1 1 [128; 0]) (mk_IntMatrix 1 1 [0; 0])) /\
  int16_of_be [128; 0] = Some (-32768) /\
  write_result concat_buffers (label_1x1 32768) (score_1x1 F32.zero) (mk_world [] [])
  = (inr tt, mk_world [] [EvWrite [0; 0; 0; 4]; EvWrite [0; 0; 128; 0]]).
Proof. repeat split. Qed.

(* ================================================================== *)
(** * Reading a frame *)
(* ================================================================== *)




Section Frames.

Variable Settings : Type.
Variable ParseFromString : bytes -> option (Input Settings).
Variable SerializeResult : Result -> bytes.
Variable model_eval : ndarray F32.t -> result (ndarray Z * list (ndarray F32.t)).

Local Abbreviation read_input' := (read_input ParseFromString).
Local Abbreviation serve_cycle' := (serve_cycle ParseFromString SerializeResult model_eval).
Local Abbreviation main_loop' := (main_loop ParseFromString SerializeResult model_eval).

Lemma read_input_closed (w : world) :
  (length (stdin w) < 4)%nat ->
  read_input' w = (inl StructError, mk_world [] (trace w)).
Proof.
  intros H. destruct w as [inp tr]. simpl in H.
  destruct inp as [|b0 [|b1 [|b2 [|b3 rest]]]]; simpl in H; try lia; reflexivity.
Qed.

(** C2, as the code has it.  When the stream closes before four bytes of
    a length prefix have come, [read_input'] raises [struct.error] (the
    four-byte unpack fails), nothing in the loop catches it, and [main]
    ends with that exception; nothing is written in that turn. *)
Theorem stream_closed_raises_struct_error (fuel : nat) (w : world) :
  (length (stdin w) < 4)%nat ->
  read_input' w = (inl StructError, mk_world [] (trace w)) /\
  main_loop' (S fuel) w = (Raised StructError, mk_world [] (trace w)).
Proof.
  intros H. pose proof (read_input_closed w H) as R.
  split; [exact R|].
  simpl. unfold serve_cycle, mbind. rewrite R. reflexivity.
Qed.


End Frames.

(** C2 fails as stated: on an input stream that is closed from the start
    [main] ends with an uncaught [struct.error], it does not return. *)
Lemma closed_stream_ends_main_with_error :
  main parse_nothing concat_buffers model_raises 1 (mk_world [] [])
  = (Raised StructError,
     mk_world [] [EvPrint "cellpose_server: loaded model defualt Cyto Model"]) /\
  main parse_nothing concat_buffers model_raises 1 (mk_world [0; 0] [])
  = (Raised StructError,
     mk_world [] [EvPrint "cellpose_server: loaded model defualt Cyto Model"]).
Proof. split; reflexivity. Qed.

Lemma stream_closed_raises_struct_error_witness :
  read_input parse_nothing (mk_world [0; 0; 0] [])
  = (inl StructError, mk_world [] []) /\
  main_loop parse_nothing concat_buffers model_raises 1 (mk_world [0; 0; 0] [])
  = (Raised StructError, mk_world [] []).
Proof.
  apply (@stream_closed_raises_struct_error unit parse_nothing concat_buffers
           model_raises 0 (mk_world [0; 0; 0] [])).
  simpl. lia.
Defined.


(* ================================================================== *)
(** * Stepping through a turn *)
(* ================================================================== *)

(** Stepping through a [mbind]. *)
Lemma mbind_ok {A B} (m : M A) (k : A -> M B) (w w' : world) (a : A) :
  m w = (inr a, w') -> mbind m k w = k a w'.
Proof. intros H. unfold mbind. rewrite H. reflexivity. Qed.

Lemma mbind_raise {A B} (m : M A) (k : A -> M B) (w w' : world) (e : exn) :
  m w = (inl e, w') -> mbind m k w = (inl e, w').
Proof. intros H. unfold mbind. rewrite H. reflexivity. Qed.

Lemma mbind_emit {B} (e : event) (k : unit -> M B) (w : world) :
  mbind (emit e) k w = k tt (mk_world (stdin w) (trace w ++ [e])).
Proof. reflexivity. Qed.

Lemma mbind_lift_ok {A B} (r : result A) (k : A -> M B) (w : world) (a : A) :
  r = inr a -> mbind (lift r) k w = k a w.
Proof. intros ->. reflexivity. Qed.

Lemma mbind_lift_raise {A B} (r : result A) (k : A -> M B) (w : world) (e : exn) :
  r = inl e -> mbind (lift r) k w = (inl e, w).
Proof. intros ->. reflexivity. Qed.

Lemma mbind_assert_true {B} (k : unit -> M B) (w : world) :
  mbind (lift (py_assert true)) k w = k tt w.
Proof. reflexivity. Qed.

Lemma mbind_assert_false {B} (k : unit -> M B) (w : world) :
  mbind (lift (py_assert false)) k w = (inl AssertionError, w).
Proof. reflexivity. Qed.

(* ================================================================== *)
(** * The trace only grows *)
(* ================================================================== *)

Lemma appends_lift {A} (r : result A) : appends (lift r).
Proof. intros w. exists []. simpl. rewrite app_nil_r. reflexivity. Qed.

Lemma appends_mret {A} (a : A) : appends (mret a).
Proof. intros w. exists []. simpl. rewrite app_nil_r. reflexivity. Qed.

Lemma appends_emit (e : event) : appends (emit e).
Proof. intros w. exists [e]. reflexivity. Qed.

Lemma appends_st_write (bs : bytes) : appends (st_write bs).
Proof. apply appends_emit. Qed.

Lemma appends_st_read (n : Z) : appends (st_read n).
Proof.
  intros w. exists []. unfold st_read.
  destruct (n <? -1); [|destruct (n =? -1)]; simpl; rewrite app_nil_r; reflexivity.
Qed.

Lemma appends_mbind {A B} (m : M A) (k : A -> M B) :
  appends m -> (forall a, appends (k a)) -> appends (mbind m k).
Proof.
  intros Hm Hk w. unfold mbind.
  destruct (Hm w) as [tr1 H1]. destruct (m w) as [[e|a] w1]; simpl in H1.
  - exists tr1. exact H1.
  - destruct (Hk a w1) as [tr2 H2]. exists (tr1 ++ tr2).
    rewrite H2, H1. rewrite app_assoc. reflexivity.
Qed.

Lemma appends_write_result (ser : Result -> bytes) lbl scr :
  appends (write_result ser lbl scr).
Proof.
  unfold write_result.
  repeat (apply appends_mbind; [ | intros ]);
    first [ apply appends_lift | apply appends_mret | apply appends_emit
            | apply appends_st_write | apply appends_st_read ].
Qed.

(* ================================================================== *)
(** * Normalisation *)
(* ================================================================== *)

(** Dividing by a zero gives NaN or an infinity, whatever is divided. *)
Lemma div_by_zero_nan_or_inf (v d : F32.t) :
  F32.is_zero d = true -> nan_or_inf (F32.div v d) = true.
Proof.
  destruct d; try discriminate. intros _.
  destruct v; reflexivity.
Qed.

(** Arithmetic on zeros and NaN stays among zeros and NaN. *)
Lemma sub_self (c : F32.t) : finite c = true -> F32.sub c c = F32.zero.
Proof.
  destruct c as [[|]|s| |s m e]; try discriminate; try reflexivity.
  intros _. unfold F32.sub, SFsub. rewrite Z.sub_diag. reflexivity.
Qed.

Lemma zero_or_nan_add a b :
  zero_or_nan a = true -> zero_or_nan b = true -> zero_or_nan (F32.add a b) = true.
Proof.
  destruct a as [[|]|?| |? ? ?], b as [[|]|?| |? ? ?]; try discriminate; reflexivity.
Qed.

Lemma zero_or_nan_sub a b :
  zero_or_nan a = true -> zero_or_nan b = true -> zero_or_nan (F32.sub a b) = true.
Proof.
  destruct a as [[|]|?| |? ? ?], b as [[|]|?| |? ? ?]; try discriminate; reflexivity.
Qed.

Lemma zero_or_nan_mul a b :
  zero_or_nan a = true -> zero_or_nan b = true -> zero_or_nan (F32.mul a b) = true.
Proof.
  destruct a as [[|]|?| |? ? ?], b as [[|]|?| |? ? ?]; try discriminate; reflexivity.
Qed.

Lemma zero_or_nan_div a d :
  zero_or_nan a = true -> zero_or_nan (F32.div a d) = true.
Proof.
  destruct a as [?|?| |? ? ?], d as [?|?| |? ? ?]; try discriminate; reflexivity.
Qed.

Lemma zero_or_nan_sqrt a :
  zero_or_nan a = true -> zero_or_nan (F32.sqrt a) = true.
Proof. destruct a as [?|?| |? ? ?]; try discriminate; reflexivity. Qed.

Lemma zero_or_nan_sum (l : list F32.t) : forall acc,
  Forall (fun v => zero_or_nan v = true) l ->
  zero_or_nan acc = true ->
  zero_or_nan (fold_left F32.add l acc) = true.
Proof.
  induction l as [|v l IH]; intros acc Hl Hacc; [exact Hacc|].
  inversion Hl; subst. simpl. apply IH; [assumption|].
  apply zero_or_nan_add; assumption.
Qed.

Lemma zero_or_nan_std (a : ndarray F32.t) :
  Forall (fun v => zero_or_nan v = true) (elems a) ->
  zero_or_nan (np_std a) = true.
Proof.
  intros Ha. unfold np_std.
  apply zero_or_nan_sqrt, zero_or_nan_div. unfold np_sum.
  apply zero_or_nan_sum; [|reflexivity].
  rewrite Forall_forall in *. intros v Hv.
  apply in_map_iff in Hv. destruct Hv as [u [<- Hu]].
  apply in_map_iff in Hu. destruct Hu as [t [<- Ht]].
  assert (zero_or_nan (F32.sub t (np_mean a)) = true) as H.
  { apply zero_or_nan_sub; [apply Ha; exact Ht|].
    unfold np_mean. apply zero_or_nan_div. unfold np_sum.
    apply zero_or_nan_sum; [|reflexivity]. apply Forall_forall. exact Ha. }
  apply zero_or_nan_mul; exact H.
Qed.

Lemma zero_div_zero_or_nan (d : F32.t) :
  zero_or_nan d = true -> F32.div F32.zero d = S754_nan.
Proof. destruct d as [?|?| |? ? ?]; try discriminate; reflexivity. Qed.

(** A constant image whose mean is computed exactly becomes an image of
    zeros when it is centred and an image of NaN when it is normalised. *)
Lemma constant_image_normalize (img : ndarray F32.t) (c : F32.t) :
  Forall (eq c) (elems img) ->
  finite c = true ->
  np_mean img = c ->
  Forall (eq S754_nan) (elems (normalize img)).
Proof.
  intros Hc Hfin Hmean.
  assert (Forall (eq F32.zero) (elems (centred img))) as Hz.
  { unfold centred. simpl. rewrite Hmean. apply Forall_forall. intros v Hv.
    apply in_map_iff in Hv. destruct Hv as [u [<- Hu]].
    rewrite Forall_forall in Hc. rewrite <- (Hc u Hu).
    symmetry. apply sub_self. exact Hfin. }
  unfold normalize. cbv zeta. simpl elems.
  assert (zero_or_nan (np_std (centred img)) = true) as Hstd.
  { apply zero_or_nan_std. eapply Forall_impl; [|exact Hz].
    intros v <-. reflexivity. }
  apply Forall_forall. intros v Hv.
  apply in_map_iff in Hv. destruct Hv as [u [<- Hu]].
  rewrite Forall_forall in Hz. rewrite <- (Hz u Hu).
  symmetry. apply zero_div_zero_or_nan. exact Hstd.
Qed.

Lemma normalize_unfold (img : ndarray F32.t) :
  normalize img = amap (fun v => F32.div v (np_std (centred img))) (centred img).
Proof. reflexivity. Qed.

Section Normalising.

Variable Settings : Type.
Variable ParseFromString : bytes -> option (Input Settings).
Variable SerializeResult : Result -> bytes.
Variable model_eval : ndarray F32.t -> result (ndarray Z * list (ndarray F32.t)).

Local Abbreviation read_input' := (read_input ParseFromString).
Local Abbreviation serve_cycle' := (serve_cycle ParseFromString SerializeResult model_eval).

(** What a turn does once [read_input'] has returned: the two events up to
    the call of the model, then the rest. *)
Lemma serve_cycle_reaches_eval (w w1 : world) (img : ndarray F32.t) (s : Settings) :
  read_input' w = (inr (img, s), w1) ->
  exists tr,
    trace (snd (serve_cycle' w))
    = trace w1 ++ EvPrintErr "received image" (shape img)
                  :: EvEval (normalize img) :: tr.
Proof.
  intros R. unfold serve_cycle.
  rewrite (mbind_ok _ _ _ R). cbv beta. simpl fst.
  rewrite !mbind_emit.
  match goal with
  | |- exists tr, trace (snd (?rest ?w3)) = _ =>
      assert (appends rest) as Hrest
        by (repeat (apply appends_mbind; [ | intros ]);
            first [ apply appends_lift | apply appends_mret | apply appends_emit
                | apply appends_st_write | apply appends_write_result ]);
      destruct (Hrest w3) as [tr Htr]; exists tr; rewrite Htr
  end.
  simpl. rewrite <- !app_assoc. reflexivity.
Qed.

(** C4, as the code has it.  For a constant image of a finite value whose
    mean is computed exactly (all 1.0, say), and for any image whose
    standard deviation after centring is computed as zero, normalisation
    raises nothing: every element of the normalised image is NaN or an
    infinity, and that image is what [model.eval] is called with. *)
Theorem degenerate_image_reaches_model
  (w w1 : world) (img : ndarray F32.t) (s : Settings) :
  read_input' w = (inr (img, s), w1) ->
  (exists c, Forall (eq c) (elems img) /\ finite c = true /\ np_mean img = c) \/
  F32.is_zero (np_std (centred img)) = true ->
  Forall (fun v => nan_or_inf v = true) (elems (normalize img)) /\
  exists tr,
    trace (snd (serve_cycle' w))
    = trace w1 ++ EvPrintErr "received image" (shape img)
                  :: EvEval (normalize img) :: tr.
Proof.
  intros R Hdeg. split.
  - destruct Hdeg as [[c [Hc [Hfin Hmean]]] | Hz].
    + eapply Forall_impl; [|exact (constant_image_normalize img Hc Hfin Hmean)].
      intros v <-. reflexivity.
    + rewrite normalize_unfold. simpl. apply Forall_forall. intros v Hv.
      apply in_map_iff in Hv. destruct Hv as [u [<- _]].
      apply div_by_zero_nan_or_inf. exact Hz.
  - apply (serve_cycle_reaches_eval w R).
Qed.

End Normalising.

Lemma degenerate_image_reaches_model_witness :
  Forall (fun v => nan_or_inf v = true) (elems (normalize ones_4x4)) /\
  exists tr,
    trace (snd (serve_cycle (parse_as input_ones_4x4) concat_buffers model_raises
                            (mk_world [0; 0; 0; 0] [])))
    = [] ++ EvPrintErr "received image" [4%nat; 4%nat; 1%nat]
            :: EvEval (normalize ones_4x4) :: tr.
Proof.
  apply (@degenerate_image_reaches_model unit (parse_as input_ones_4x4)
           concat_buffers model_raises (mk_world [0; 0; 0; 0] []) (mk_world [] [])
           ones_4x4 tt).
  - reflexivity.
  - left. exists F32.one. split; [|split; reflexivity].
    repeat constructor.
Defined.

(** C4 fails as stated: for the 4x4x1 image of all 1.0 the turn raises
    nothing in normalisation; the model is called with an image of all NaN
    and the turn goes on to write the result frame. *)
Lemma constant_image_reaches_model_as_nan :
  normalize ones_4x4 = nan_4x4 /\
  serve_cycle (parse_as input_ones_4x4) concat_buffers
              (model_returns label_2x2 (flows_with scores_2))
              (mk_world [0; 0; 0; 0] [])
  = (inr tt,
     mk_world []
       [ EvPrintErr "received image" [4%nat; 4%nat; 1%nat];
         EvEval nan_4x4;
         EvPrint "cellpose_server: Made prediction... trying to send pred...";
         EvWrite [0; 0; 0; 16];
         EvWrite [0; 0; 1; 244; 1; 244; 0; 250; 0; 0; 0; 1; 0; 1; 0; 2] ]).
Proof. split; reflexivity. Qed.

(* ================================================================== *)
(** * The checks on what the model returns *)
(* ================================================================== *)

Lemma shape_eqb_eq (s1 s2 : list nat) : shape_eqb s1 s2 = true <-> s1 = s2.
Proof.
  revert s2. induction s1 as [|a s1 IH]; intros [|b s2]; simpl; split;
    intros H; try reflexivity; try discriminate.
  - apply andb_prop in H. destruct H as [Hab H].
    apply Nat.eqb_eq in Hab. apply IH in H. subst. reflexivity.
  - injection H as -> ->. rewrite Nat.eqb_refl. simpl. apply IH. reflexivity.
Qed.

Lemma shape_eqb_neq (s1 s2 : list nat) : s1 <> s2 -> shape_eqb s1 s2 = false.
Proof.
  intros H. destruct (shape_eqb s1 s2) eqn:E; [|reflexivity].
  exfalso. apply H. apply shape_eqb_eq. exact E.
Qed.

Section Checks.

Variable Settings : Type.
Variable ParseFromString : bytes -> option (Input Settings).
Variable SerializeResult : Result -> bytes.
Variable model_eval : ndarray F32.t -> result (ndarray Z * list (ndarray F32.t)).

Local Abbreviation read_input' := (read_input ParseFromString).
Local Abbreviation serve_cycle' := (serve_cycle ParseFromString SerializeResult model_eval).

(** C9.  In a turn that has called the model, [max(label) == len(scores)]
    and [score_img.shape == label.shape] are asserted before anything is
    encoded: when the first does not hold, or the score image derived from
    the model's output has a shape other than the label's, the turn ends
    with an [AssertionError] and its trace ends at the call of the model:
    no result is written. *)
Theorem contract_checks_precede_encoding
  (w w1 : world) (img : ndarray F32.t) (s : Settings)
  (masks : ndarray Z) (flows : list (ndarray F32.t)) (scores : ndarray F32.t)
  (m : Z) (n : nat) :
  read_input' w = (inr (img, s), w1) ->
  model_eval (normalize img) = inr (masks, flows) ->
  nth_error flows 2 = Some scores ->
  np_max (amap wrap64 masks) = inr m ->
  np_len scores = inr n ->
  m <> Z.of_nat n \/
  (exists score_img,
     score_image scores (amap wrap64 masks) = inr score_img /\
     shape score_img <> shape masks) ->
  serve_cycle' w
  = (inl AssertionError,
     mk_world (stdin w1)
              (trace w1 ++ [EvPrintErr "received image" (shape img);
                            EvEval (normalize img)])).
Proof.
  intros R Heval Hflows Hmax Hlen Hbad.
  unfold serve_cycle.
  rewrite (mbind_ok _ _ _ R). cbv beta. simpl fst.
  rewrite !mbind_emit.
  rewrite (mbind_lift_ok _ _ Heval). cbv beta. simpl fst. simpl snd.
  rewrite Hflows.
  rewrite (mbind_lift_ok _ _ eq_refl). cbv beta.
  rewrite (mbind_lift_ok _ _ Hmax). cbv beta.
  rewrite (mbind_lift_ok _ _ Hlen). cbv beta.
  assert (forall (tr1 : list event) e1 e2, (tr1 ++ [e1]) ++ [e2] = tr1 ++ [e1; e2]) as Happ
    by (intros; rewrite <- app_assoc; reflexivity).
  destruct (Z.eqb_spec m (Z.of_nat n)) as [Hmn | Hmn].
  - destruct Hbad as [Hne | [score_img [Hsi Hshape]]]; [contradiction|].
    rewrite mbind_assert_true.
    simpl shape at 1.
    destruct (length (shape masks) =? 2)%nat.
    + rewrite mbind_assert_true.
      rewrite (mbind_lift_ok _ _ Hsi). cbv beta.
      simpl shape. rewrite (shape_eqb_neq Hshape).
      rewrite mbind_assert_false.
      simpl. rewrite Happ. reflexivity.
    + rewrite mbind_assert_false.
      simpl. rewrite Happ. reflexivity.
  - rewrite mbind_assert_false.
    simpl. rewrite Happ. reflexivity.
Qed.

End Checks.

Lemma contract_checks_precede_encoding_witness :
  serve_cycle (parse_as input_two_pixels) concat_buffers
              (model_returns (label_1x1 1) (flows_with scores_1x3))
              (mk_world [0; 0; 0; 0] [])
  = (inl AssertionError,
     mk_world [] ([] ++ [EvPrintErr "received image" [1%nat; 2%nat; 1%nat];
                         EvEval (normalize two_pixels)])).
Proof.
  apply (@contract_checks_precede_encoding unit (parse_as input_two_pixels)
           concat_buffers (model_returns (label_1x1 1) (flows_with scores_1x3))
           (mk_world [0; 0; 0; 0] []) (mk_world [] []) two_pixels tt
           (label_1x1 1) (flows_with scores_1x3) scores_1x3 1 1%nat);
    try reflexivity.
  right.
  exists (mk_ndarray [1%nat; 1%nat; 3%nat] [f32_0_5; f32_0_5; f32_0_25]).
  split; [reflexivity|]. simpl. discriminate.
Defined.

(** The first check at work: two instances in the label, one score. *)
Example max_label_differs_from_len_scores :
  serve_cycle (parse_as input_two_pixels) concat_buffers
              (model_returns label_2x2 (flows_with (mk_ndarray [1%nat] [f32_0_5])))
              (mk_world [0; 0; 0; 0] [])
  = (inl AssertionError,
     mk_world [] [EvPrintErr "received image" [1%nat; 2%nat; 1%nat];
                  EvEval (normalize two_pixels)]).
Proof. reflexivity. Qed.

(* ================================================================== *)
(** * The score image *)
(* ================================================================== *)

(** C5 at the input on which the code departs from it.  An all-background
    label with no score meets [len(perInstanceScore) == max(label)] (both
    are 0), yet no score image is derived: [scores[label - 1]] indexes an
    empty array with -1 and raises [IndexError]; the turn ends there and
    writes nothing. *)
Theorem no_instance_raises_index_error :
  np_max (label_1x1 0) = inr 0 /\
  np_len scores_none = inr 0%nat /\
  score_image scores_none (label_1x1 0) = inl IndexError /\
  serve_cycle (parse_as input_two_pixels) concat_buffers
              (model_returns (label_1x1 0) (flows_with scores_none))
              (mk_world [0; 0; 0; 0] [])
  = (inl IndexError,
     mk_world [] [EvPrintErr "received image" [1%nat; 2%nat; 1%nat];
                  EvEval (normalize two_pixels)]).
Proof. repeat split. Qed.

(* ================================================================== *)
(** * write_polygon_result *)
(* ================================================================== *)

Lemma load_global_LacssMsg : load_global "LacssMsg" = inl (NameError "LacssMsg").
Proof. reflexivity. Qed.

(** The loop returns the message it was given when no paired polygon has
    more than one point, and raises [NameError] at the first that has. *)
Lemma polygons_loop_spec (pairs : list (list (F32.t * F32.t) * F32.t)) :
  forall msg,
    polygons_loop pairs msg
    = if all_degenerate pairs then inr msg else inl (NameError "LacssMsg").
Proof.
  induction pairs as [|[polygon sc] pairs IH]; intros msg.
  - reflexivity.
  - unfold all_degenerate in *. simpl.
    rewrite (Nat.ltb_antisym (length polygon) 1).
    destruct (length polygon <=? 1)%nat; simpl.
    + apply IH.
    + reflexivity.
Qed.

Section PolygonFrame.

Variable SerializePolygonResult : PolygonResult -> bytes.

(** C10, as the code has it.  [zip] pairs the polygons with the scores and
    stops at the shorter of the two.  When no paired polygon has more than
    one point, [write_polygon_result] writes the frame of an empty
    [PolygonResult]; when some paired polygon has more than one point it
    raises [NameError] for [LacssMsg] and has written nothing. *)
Theorem write_polygon_result_outcome
  (polygons : list (list (F32.t * F32.t))) (scores : list F32.t) (w : world) :
  (all_degenerate (combine polygons scores) = true ->
   Z.of_nat (length (SerializePolygonResult (mk_PolygonResult []))) <= 2147483647 ->
   exists size_bits,
     struct_pack_i (Z.of_nat (length (SerializePolygonResult (mk_PolygonResult []))))
     = inr size_bits /\
     write_polygon_result SerializePolygonResult polygons scores w
     = (inr tt,
        mk_world (stdin w)
          (trace w ++ [EvWrite size_bits;
                       EvWrite (SerializePolygonResult (mk_PolygonResult []))]))) /\
  (all_degenerate (combine polygons scores) = false ->
   write_polygon_result SerializePolygonResult polygons scores w
   = (inl (NameError "LacssMsg"), w)).
Proof.
  unfold write_polygon_result. split.
  - intros Hall Hsize.
    destruct (struct_pack_i_ok _ Hsize) as [bits [Hbits _]].
    exists bits. split; [exact Hbits|].
    rewrite (mbind_lift_ok _ _ (eq_trans (polygons_loop_spec _ _)
                                    (f_equal (fun b : bool => if b then _ else _) Hall))).
    cbv beta zeta.
    rewrite (mbind_lift_ok _ _ Hbits). cbv beta.
    unfold st_write. rewrite mbind_emit. unfold emit. simpl.
    rewrite <- app_assoc. reflexivity.
  - intros Hsome.
    apply mbind_lift_raise.
    rewrite polygons_loop_spec, Hsome. reflexivity.
Qed.

(** C7 at the input on which the code departs from it: one polygon of two
    points with its score.  The claim has it encoded; the code raises
    [NameError] at [LacssMsg.Polygon()] and writes nothing. *)
Theorem two_point_polygon_raises_name_error (w : world) :
  combine [segment] [f32_0_5] = [(segment, f32_0_5)] /\
  length segment = 2%nat /\
  write_polygon_result SerializePolygonResult [segment] [f32_0_5] w
  = (inl (NameError "LacssMsg"), w).
Proof.
  split; [reflexivity|]. split; [reflexivity|].
  apply mbind_lift_raise. rewrite polygons_loop_spec. reflexivity.
Qed.

End PolygonFrame.

Lemma write_polygon_result_outcome_witness :
  (exists size_bits,
     struct_pack_i 0 = inr size_bits /\
     write_polygon_result serialize_unset [single_point; []] [f32_0_5; f32_0_25]
                          (mk_world [] [])
     = (inr tt, mk_world [] [EvWrite size_bits; EvWrite []])) /\
  write_polygon_result serialize_unset [single_point; segment] [f32_0_5; f32_0_25]
                       (mk_world [] [])
  = (inl (NameError "LacssMsg"), mk_world [] []).
Proof.
  split.
  - apply (proj1 (@write_polygon_result_outcome serialize_unset
                    [single_point; []] [f32_0_5; f32_0_25] (mk_world [] []))).
    + reflexivity.
    + simpl. lia.
  - apply (proj2 (@write_polygon_result_outcome serialize_unset
                    [single_point; segment] [f32_0_5; f32_0_25] (mk_world [] []))).
    reflexivity.
Defined.

(** C10 fails as stated: a polygon of two points that [zip] pairs with no
    score raises nothing; the frame of an empty [PolygonResult] is
    written. *)
Lemma unpaired_polygon_is_dropped :
  write_polygon_result serialize_unset [segment] [] (mk_world [] [])
  = (inr tt, mk_world [] [EvWrite [0; 0; 0; 0]; EvWrite []]).
Proof. reflexivity. Qed.

(* ================================================================== *)
(** * The loop ends on every finite input *)
(* ================================================================== *)

Lemma reads_nothing_lift {A} (r : result A) : reads_nothing (lift r).
Proof. intros w. reflexivity. Qed.

Lemma reads_nothing_mret {A} (a : A) : reads_nothing (mret a).
Proof. intros w. reflexivity. Qed.

Lemma reads_nothing_emit (e : event) : reads_nothing (emit e).
Proof. intros w. reflexivity. Qed.

Lemma reads_nothing_st_write (bs : bytes) : reads_nothing (st_write bs).
Proof. intros w. reflexivity. Qed.

Lemma reads_nothing_mbind {A B} (m : M A) (k : A -> M B) :
  reads_nothing m -> (forall a, reads_nothing (k a)) -> reads_nothing (mbind m k).
Proof.
  intros Hm Hk w. unfold mbind.
  pose proof (Hm w) as H1. destruct (m w) as [[e|a] w1]; simpl in H1.
  - exact H1.
  - rewrite (Hk a w1). exact H1.
Qed.

Lemma reads_nothing_write_result (ser : Result -> bytes) lbl scr :
  reads_nothing (write_result ser lbl scr).
Proof.
  unfold write_result.
  repeat (apply reads_nothing_mbind; [ | intros ]);
    first [ apply reads_nothing_lift | apply reads_nothing_mret
            | apply reads_nothing_emit | apply reads_nothing_st_write ].
Qed.

Lemma st_read_shrinks (n : Z) (w : world) :
  (length (stdin (snd (st_read n w))) <= length (stdin w))%nat.
Proof.
  unfold st_read.
  destruct (n <? -1); [|destruct (n =? -1)]; simpl; try lia.
  rewrite length_skipn. lia.
Qed.

Section Termination.

Variable Settings : Type.
Variable ParseFromString : bytes -> option (Input Settings).
Variable SerializeResult : Result -> bytes.
Variable model_eval : ndarray F32.t -> result (ndarray Z * list (ndarray F32.t)).

Local Abbreviation read_input' := (read_input ParseFromString).
Local Abbreviation serve_cycle' := (serve_cycle ParseFromString SerializeResult model_eval).
Local Abbreviation main_loop' := (main_loop ParseFromString SerializeResult model_eval).

(** A frame that [read_input] returns has taken at least its four bytes of
    length prefix off the stream. *)
Lemma read_input_consumes (w w1 : world) r :
  read_input' w = (inr r, w1) ->
  (length (stdin w1) + 4 <= length (stdin w))%nat.
Proof.
  destruct w as [inp tr].
  destruct inp as [|b0 [|b1 [|b2 [|b3 rest]]]]; try discriminate.
  unfold read_input.
  rewrite (mbind_ok (st_read 4) _ (mk_world (b0 :: b1 :: b2 :: b3 :: rest) tr)
             (a := [b0; b1; b2; b3]) (w' := mk_world rest tr) eq_refl).
  cbv beta.
  rewrite (mbind_lift_ok (r := struct_unpack_i [b0; b1; b2; b3]) _ _ eq_refl).
  cbv beta. set (n := wrap32 _).
  pose proof (st_read_shrinks n (mk_world rest tr)) as Hs.
  unfold mbind at 1.
  destruct (st_read n (mk_world rest tr)) as [[e|body] w2]; [discriminate|].
  simpl in Hs.
  match goal with
  | |- ?rest_of w2 = _ -> _ =>
      assert (reads_nothing rest_of) as Hr
        by (repeat (apply reads_nothing_mbind; [ | intros ]);
            first [ apply reads_nothing_lift | apply reads_nothing_mret
                | apply reads_nothing_emit | apply reads_nothing_st_write
                | apply reads_nothing_write_result ]);
      intros H; pose proof (Hr w2) as Hw; rewrite H in Hw
  end.
  simpl in Hw |- *. rewrite Hw. lia.
Qed.

Lemma serve_cycle_consumes (w w1 : world) u :
  serve_cycle' w = (inr u, w1) ->
  (length (stdin w1) + 4 <= length (stdin w))%nat.
Proof.
  unfold serve_cycle. unfold mbind at 1.
  destruct (read_input' w) as [[e|r] w0] eqn:R; [discriminate|].
  apply read_input_consumes in R.
  match goal with
  | |- ?rest_of w0 = _ -> _ =>
      assert (reads_nothing rest_of) as Hr
        by (repeat (apply reads_nothing_mbind; [ | intros ]);
            first [ apply reads_nothing_lift | apply reads_nothing_mret
                | apply reads_nothing_emit | apply reads_nothing_st_write
                | apply reads_nothing_write_result ]);
      intros H; pose proof (Hr w0) as Hw; rewrite H in Hw
  end.
  simpl in Hw. rewrite Hw. exact R.
Qed.

(** However long it runs, the loop does not return. *)
Lemma main_loop_never_returns (fuel : nat) : forall w : world,
  fst (main_loop' fuel w) <> Returned.
Proof.
  induction fuel as [|fuel IH]; intros w; simpl.
  - discriminate.
  - destruct (serve_cycle' w) as [[e|u] w1]; [discriminate | apply IH].
Qed.

(** On an input of [n] bytes the loop is ended by an exception within
    [n / 4 + 1] turns: it does not run on. *)
Theorem main_loop_ends_with_exception (fuel : nat) : forall w : world,
  (length (stdin w) < 4 * fuel)%nat ->
  exists e w', main_loop' fuel w = (Raised e, w').
Proof.
  induction fuel as [|fuel IH]; intros w Hlen; [lia|].
  simpl. destruct (serve_cycle' w) as [[e|u] w1] eqn:C.
  - exists e, w1. reflexivity.
  - apply serve_cycle_consumes in C. apply IH. lia.
Qed.

End Termination.

Lemma main_loop_ends_with_exception_witness :
  exists e w',
    main_loop (parse_as input_two_pixels) concat_buffers
              (model_returns label_2x2 (flows_with scores_2))
              2 (mk_world [0; 0; 0; 0] [])
    = (Raised e, w').
Proof.
  apply (@main_loop_ends_with_exception unit (parse_as input_two_pixels)
           concat_buffers (model_returns label_2x2 (flows_with scores_2))
           2 (mk_world [0; 0; 0; 0] [])).
  simpl. lia.
Defined.

(* ================================================================== *)
(** * The score image, pixel by pixel *)
(* ================================================================== *)

Lemma size_pos_of_lt (d : nat) (sh : list nat) (k : nat) :
  (k < d * size sh)%nat -> (0 < size sh)%nat.
Proof. destruct (size sh); lia. Qed.

Lemma ravel_unravel (sh : list nat) : forall k,
  (k < size sh)%nat ->
  ravel sh (map (fun p => if (fst p =? 1)%nat then O else snd p)
                (combine sh (unravel sh k))) = k.
Proof.
  induction sh as [|d sh IH]; intros k Hk.
  - simpl in *. lia.
  - change (size (d :: sh)) with (d * size sh)%nat in Hk.
    pose proof (size_pos_of_lt _ _ Hk) as Hs.
    simpl. rewrite IH by (apply Nat.mod_upper_bound; lia).
    destruct (Nat.eqb_spec d 1) as [-> | Hd].
    + rewrite Nat.mod_small by lia. lia.
    + pose proof (Nat.div_mod_eq k (size sh)). lia.
Qed.

Lemma bcast_index_same (sh : list nat) (k : nat) :
  (k < size sh)%nat -> bcast_index sh sh k = k.
Proof.
  intros Hk. unfold bcast_index. rewrite Nat.sub_diag. simpl skipn.
  apply ravel_unravel. exact Hk.
Qed.

Lemma broadcastable_same (sh : list nat) : broadcastable_to sh sh = true.
Proof.
  unfold broadcastable_to. rewrite Nat.leb_refl, Nat.sub_diag. simpl.
  induction sh as [|d sh IH]; simpl; [reflexivity|].
  rewrite Nat.eqb_refl, orb_true_r. exact IH.
Qed.

Lemma nth_error_mapi_from {A B} (f : nat -> A -> B) (l : list A) : forall s k,
  nth_error (map (fun p => f (fst p) (snd p)) (combine (seq s (length l)) l)) k
  = option_map (f (s + k)%nat) (nth_error l k).
Proof.
  induction l as [|a l IH]; intros s k.
  - destruct k; reflexivity.
  - destruct k as [|k]; simpl.
    + rewrite Nat.add_0_r. reflexivity.
    + rewrite IH. rewrite Nat.add_succ_r. reflexivity.
Qed.

Lemma nth_error_mapi {A B} (f : nat -> A -> B) (l : list A) (k : nat) :
  nth_error (mapi f l) k = option_map (f k) (nth_error l k).
Proof. unfold mapi. apply nth_error_mapi_from. Qed.

Lemma length_mapi {A B} (f : nat -> A -> B) (l : list A) :
  length (mapi f l) = length l.
Proof.
  unfold mapi. rewrite length_map, length_combine, length_seq. lia.
Qed.

Lemma firstn_1_skipn {A} (l : list A) (k : nat) (d : A) :
  (k < length l)%nat -> firstn 1 (skipn (k * 1) l) = [nth k l d].
Proof.
  rewrite Nat.mul_1_r. revert k. induction l as [|a l IH]; intros k Hk.
  - simpl in Hk. lia.
  - destruct k as [|k]; simpl.
    + reflexivity.
    + apply IH. simpl in Hk. lia.
Qed.

Lemma map_result_ok {A B} (f : A -> result B) (g : A -> B) (l : list A) :
  Forall (fun a => f a = inr (g a)) l -> map_result f l = inr (map g l).
Proof.
  induction 1 as [|a l Ha _ IH]; [reflexivity|].
  simpl. rewrite Ha, IH. reflexivity.
Qed.

Lemma concat_singletons {A B} (f : A -> B) (l : list A) :
  concat (map (fun a => [f a]) l) = map f l.
Proof. induction l as [|a l IH]; simpl; [reflexivity|]. rewrite IH. reflexivity. Qed.

Lemma np_take_1d (sc : list F32.t) (idx : ndarray Z) :
  Forall (fun i => - Z.of_nat (length sc) <= i < Z.of_nat (length sc)) (elems idx) ->
  np_take (mk_ndarray [length sc] sc) idx
  = inr (mk_ndarray (shape idx ++ [])
           (map (fun i => nth (py_index (length sc) i) sc F32.zero) (elems idx))).
Proof.
  intros Hall. unfold np_take. simpl shape. cbv beta iota zeta.
  simpl size. simpl elems.
  erewrite (map_result_ok _ (fun i => [nth (py_index (length sc) i) sc F32.zero])).
  - simpl. rewrite concat_singletons. reflexivity.
  - apply (Forall_impl _ (P := fun i => - Z.of_nat (length sc) <= i < Z.of_nat (length sc)));
      [|exact Hall].
    intros i Hi. cbv beta.
    replace ((- Z.of_nat (length sc) <=? i) && (i <? Z.of_nat (length sc))) with true
      by (symmetry; apply andb_true_intro; split; [apply Z.leb_le | apply Z.ltb_lt]; lia).
    unfold ret. f_equal. apply firstn_1_skipn. unfold py_index.
    destruct (Z.ltb_spec i 0); lia.
Qed.

Lemma wrap64_in_range v : - 2 ^ 63 <= v < 2 ^ 63 -> wrap64 v = v.
Proof.
  intros H. unfold wrap64. rewrite Z.mod_small by lia. lia.
Qed.

Lemma mul_one_finite (s : bool) (m : positive) (e : Z) :
  bounded F32.prec F32.emax m e = true ->
  F32.mul (S754_finite s m e) F32.one = S754_finite s m e.
Proof.
  intros Hb. unfold bounded, canonical_mantissa in Hb.
  apply andb_prop in Hb. destruct Hb as [Hc He].
  apply Z.eqb_eq in Hc. apply Z.leb_le in He.
  change F32.one with (S754_finite false 8388608 (-23)).
  unfold F32.mul, SFmul. rewrite xorb_false_r.
  rewrite Pos.mul_comm.
  change (Pos.mul 8388608 m)
    with (m~0~0~0~0~0~0~0~0~0~0~0~0~0~0~0~0~0~0~0~0~0~0~0)%positive.
  unfold binary_round_aux, shr_fexp.
  assert (Zdigits2 (Zpos (m~0~0~0~0~0~0~0~0~0~0~0~0~0~0~0~0~0~0~0~0~0~0~0))
          = Zpos (digits2_pos m) + 23) as Hd.
  { simpl. lia. }
  rewrite Hd.
  replace (Zpos (digits2_pos m) + 23 + (e + -23)) with (Zpos (digits2_pos m) + e) by lia.
  rewrite Hc.
  replace (e - (e + -23)) with 23 by lia.
  simpl shr.
  replace (e + -23 + 23) with e by lia.
  simpl round_nearest_even. unfold shr_record_of_loc.
  change (Zdigits2 (Z.pos m)) with (Zpos (digits2_pos m)).
  rewrite Hc. rewrite Z.sub_diag. simpl.
  change (F32.emax - F32.prec) with 104 in He.
  replace (e <=? 104) with true by (symmetry; apply Z.leb_le; exact He).
  reflexivity.
Qed.

Lemma mul_one (x : F32.t) : valid x = true -> F32.mul x F32.one = x.
Proof.
  destruct x as [[|]|[|]| |s m e]; try reflexivity.
  apply mul_one_finite.
Qed.

Lemma mul_zero (x : F32.t) :
  F32.is_nan x = false -> F32.is_inf x = false ->
  F32.is_zero (F32.mul x F32.zero) = true.
Proof. destruct x; simpl; try discriminate; reflexivity. Qed.

(** The score image, pixel by pixel, when the scores are one-dimensional
    and well formed, there is at least one and every label is background or
    the number of an instance: the image has the shape of the label, a
    pixel of instance [v] holds [scores[v-1]], and a background pixel holds
    [scores[-1] * 0.0]. *)
Theorem score_image_pixels (sc : list F32.t) (lbl : ndarray Z) :
  (0 < length sc)%nat ->
  Z.of_nat (length sc) < 2 ^ 63 ->
  Forall (fun s => valid s = true) sc ->
  wf lbl ->
  Forall (fun v => 0 <= v <= Z.of_nat (length sc)) (elems lbl) ->
  exists score_img,
    score_image (mk_ndarray [length sc] sc) lbl = inr score_img /\
    shape score_img = shape lbl /\
    forall k v, nth_error (elems lbl) k = Some v ->
      nth_error (elems score_img) k
      = Some (if 0 <? v
              then nth (Z.to_nat (v - 1)) sc F32.zero
              else F32.mul (nth (length sc - 1) sc F32.zero) F32.zero).
Proof.
  intros Hn Hn63 Hvalid Hwf Hall.
  unfold score_image.
  rewrite np_take_1d.
  - simpl bind. unfold np_imul_mask. simpl shape. simpl elems.
    rewrite app_nil_r, broadcastable_same.
    eexists. split; [reflexivity|]. split; [reflexivity|].
    intros k v Hk. simpl elems.
    rewrite nth_error_mapi. rewrite !map_map. rewrite nth_error_map, Hk. simpl.
    f_equal.
    rewrite bcast_index_same
      by (rewrite <- Hwf; apply nth_error_Some; rewrite Hk; discriminate).
    rewrite (nth_indep _ false (0 <? v))
      by (rewrite length_map; apply nth_error_Some; rewrite Hk; discriminate).
    rewrite (map_nth (fun v => 0 <? v)).
    rewrite (nth_error_nth _ _ _ Hk).
    rewrite Forall_forall in Hall.
    pose proof (Hall v (nth_error_In _ _ Hk)) as Hv.
    rewrite wrap64_in_range by lia.
    unfold py_index.
    destruct (Z.ltb_spec 0 v) as [Hpos|Hzero].
    + replace (v - 1 <? 0) with false by (symmetry; apply Z.ltb_ge; lia).
      apply mul_one.
      rewrite Forall_forall in Hvalid. apply Hvalid. apply nth_In. lia.
    + assert (v = 0) as -> by lia.
      change (0 - 1 <? 0) with true. cbv iota.
      replace (Z.to_nat (0 - 1 + Z.of_nat (length sc))) with (length sc - 1)%nat by lia.
      reflexivity.
  - simpl. apply Forall_forall. intros i Hi.
    apply in_map_iff in Hi. destruct Hi as [v [<- Hv]].
    rewrite Forall_forall in Hall. specialize (Hall v Hv).
    rewrite wrap64_in_range by lia. lia.
Qed.

Lemma score_image_pixels_witness :
  exists score_img,
    score_image scores_2 label_2x2 = inr score_img /\
    shape score_img = [2%nat; 2%nat] /\
    forall k v, nth_error [0; 1; 1; 2] k = Some v ->
      nth_error (elems score_img) k
      = Some (if 0 <? v
              then nth (Z.to_nat (v - 1)) [f32_0_5; f32_0_25] F32.zero
              else F32.mul (nth (2 - 1) [f32_0_5; f32_0_25] F32.zero) F32.zero).
Proof.
  apply (@score_image_pixels [f32_0_5; f32_0_25] label_2x2).
  - simpl. lia.
  - simpl. lia.
  - repeat constructor.
  - reflexivity.
  - repeat constructor; simpl; lia.
Defined.

(** A background pixel is zero when the last score is finite, and NaN when
    it is an infinity or NaN. *)
Lemma background_pixel (s : F32.t) :
  (F32.is_nan s = false -> F32.is_inf s = false ->
   F32.is_zero (F32.mul s F32.zero) = true) /\
  (F32.is_nan s || F32.is_inf s = true ->
   F32.mul s F32.zero = S754_nan).
Proof.
  split.
  - apply mul_zero.
  - destruct s; simpl; try discriminate; reflexivity.
Qed.

(* ================================================================== *)
(** * Length prefixes *)
(* ================================================================== *)

(** What [struct.pack(">i", n)] returns, [struct.unpack(">i", _)] reads
    back as [n]. *)
Lemma struct_pack_unpack (n : Z) (bits : bytes) :
  struct_pack_i n = inr bits ->
  struct_unpack_i bits = inr n /\ length bits = 4%nat.
Proof.
  unfold struct_pack_i, in_int32.
  destruct ((-2147483648 <=? n) && (n <=? 2147483647)) eqn:E; [|discriminate].
  apply andb_prop in E. destruct E as [H1 H2].
  apply Z.leb_le in H1. apply Z.leb_le in H2.
  intros H. injection H as <-. split; [|reflexivity].
  unfold struct_unpack_i, wrap32, ret. f_equal.
  Z.to_euclidean_division_equations; lia.
Qed.

(* ================================================================== *)
(** * A run of main *)
(* ================================================================== *)

(** Two requests on standard input and nothing after them: both are
    answered, then the third turn finds the input at its end. *)
Example two_frames_then_struct_error :
  main (parse_as input_two_pixels) concat_buffers
       (model_returns label_2x2 (flows_with scores_2))
       3 (mk_world [0; 0; 0; 0; 0; 0; 0; 0; 0; 0] [])
  = (Raised StructError,
     mk_world []
       [ EvPrint "cellpose_server: loaded model defualt Cyto Model";
         EvPrintErr "received image" [1%nat; 2%nat; 1%nat];
         EvEval (normalize two_pixels);
         EvPrint "cellpose_server: Made prediction... trying to send pred...";
         EvWrite [0; 0; 0; 16];
         EvWrite [0; 0; 1; 244; 1; 244; 0; 250; 0; 0; 0; 1; 0; 1; 0; 2];
         EvPrintErr "received image" [1%nat; 2%nat; 1%nat];
         EvEval (normalize two_pixels);
         EvPrint "cellpose_server: Made prediction... trying to send pred...";
         EvWrite [0; 0; 0; 16];
         EvWrite [0; 0; 1; 244; 1; 244; 0; 250; 0; 0; 0; 1; 0; 1; 0; 2] ]).
Proof. reflexivity. Qed.

(* ================================================================== *)
(** * A turn that returns *)
(* ================================================================== *)

Lemma mbind_inv {A B} (m : M A) (k : A -> M B) (w w' : world) (b : B) :
  mbind m k w = (inr b, w') ->
  exists a w1, m w = (inr a, w1) /\ k a w1 = (inr b, w').
Proof.
  unfold mbind. destruct (m w) as [[e|a] w1]; [discriminate|].
  intros H. exists a, w1. split; [reflexivity | exact H].
Qed.

Lemma lift_inv {A} (r : result A) (w w' : world) (a : A) :
  lift r w = (inr a, w') -> r = inr a /\ w' = w.
Proof. unfold lift. intros H. injection H as -> ->. split; reflexivity. Qed.

Lemma emit_inv (e : event) (w w' : world) (u : unit) :
  emit e w = (inr u, w') -> w' = mk_world (stdin w) (trace w ++ [e]).
Proof. unfold emit. intros H. injection H as _ <-. reflexivity. Qed.

Lemma write_result_inv (ser : Result -> bytes) lbl scr (w w' : world) (u : unit) :
  write_result ser lbl scr w = (inr u, w') ->
  exists msg prefix,
    result_msg lbl scr = inr msg /\
    struct_pack_i (Z.of_nat (length (ser msg))) = inr prefix /\
    w' = mk_world (stdin w) (trace w ++ [EvWrite prefix; EvWrite (ser msg)]).
Proof.
  unfold write_result. intros H.
  apply mbind_inv in H. destruct H as [msg [w1 [H1 H]]].
  apply lift_inv in H1. destruct H1 as [Hmsg ->].
  apply mbind_inv in H. destruct H as [prefix [w2 [H2 H]]].
  apply lift_inv in H2. destruct H2 as [Hp ->].
  apply mbind_inv in H. destruct H as [u1 [w3 [H3 H]]].
  apply emit_inv in H3. subst w3. apply emit_inv in H. subst w'.
  exists msg, prefix. repeat split; try assumption.
  simpl. rewrite <- app_assoc. reflexivity.
Qed.

Section ReturningTurn.

Variable Settings : Type.
Variable ParseFromString : bytes -> option (Input Settings).
Variable SerializeResult : Result -> bytes.
Variable model_eval : ndarray F32.t -> result (ndarray Z * list (ndarray F32.t)).

Local Abbreviation read_input' := (read_input ParseFromString).
Local Abbreviation serve_cycle' := (serve_cycle ParseFromString SerializeResult model_eval).

Lemma read_input_keeps_trace (w : world) : trace (snd (read_input' w)) = trace w.
Proof.
  unfold read_input, mbind. 
  destruct (st_read 4 w) as [[e|p] w1] eqn:E1.
  - unfold st_read in E1. destruct (4 <? -1); [|destruct (4 =? -1)];
      injection E1 as _ <-; reflexivity.
  - assert (trace w1 = trace w) as T1.
    { unfold st_read in E1. destruct (4 <? -1); [|destruct (4 =? -1)];
        injection E1 as _ <-; reflexivity. }
    unfold lift. destruct (struct_unpack_i p) as [e|n]; [exact T1|].
    destruct (st_read n w1) as [[e|body] w2] eqn:E2.
    + unfold st_read in E2. destruct (n <? -1); [|destruct (n =? -1)];
        injection E2 as _ <-; exact T1.
    + assert (trace w2 = trace w) as T2.
      { unfold st_read in E2. destruct (n <? -1); [|destruct (n =? -1)];
          injection E2 as _ <-; exact T1. }
      destruct (ParseFromString body) as [msg|]; [|exact T2].
      simpl. destruct (np_frombuffer_f4 (im_data (image msg))) as [e|a]; [exact T2|].
      destruct (np_reshape a _) as [e|a']; exact T2.
Qed.

(** A turn returns only on these terms: a frame was read, the model
    returned masks and at least three flows, [max(label)] is the length of
    the third, the label has two dimensions, the score image could be
    derived and has the shape of the label, and the two encode.  It has
    then printed the shape on [sys.stderr], called the model, printed a
    line of text on [sys.stdout], and written the length prefix and the
    serialised [Result] to [sys.stdout.buffer], in that order. *)
Theorem returning_turn (w w' : world) (u : unit) :
  serve_cycle' w = (inr u, w') ->
  exists img s w1 masks flows scores n score_img msg prefix,
    read_input' w = (inr (img, s), w1) /\
    model_eval (normalize img) = inr (masks, flows) /\
    nth_error flows 2 = Some scores /\
    np_max (amap wrap64 masks) = inr (Z.of_nat n) /\
    np_len scores = inr n /\
    length (shape masks) = 2%nat /\
    score_image scores (amap wrap64 masks) = inr score_img /\
    shape score_img = shape masks /\
    result_msg (amap wrap64 masks) score_img = inr msg /\
    struct_pack_i (Z.of_nat (length (SerializeResult msg))) = inr prefix /\
    w' = mk_world (stdin w1)
           (trace w ++
              [ EvPrintErr "received image" (shape img);
                EvEval (normalize img);
                EvPrint "cellpose_server: Made prediction... trying to send pred...";
                EvWrite prefix;
                EvWrite (SerializeResult msg) ]).
Proof.
  unfold serve_cycle. intros H.
  apply mbind_inv in H. destruct H as [[img s] [w1 [R H]]].
  pose proof (read_input_keeps_trace w) as T. rewrite R in T. simpl in T.
  apply mbind_inv in H. destruct H as [? [w2 [E H]]]. apply emit_inv in E. subst w2.
  apply mbind_inv in H. destruct H as [? [w2 [E H]]]. apply emit_inv in E. subst w2.
  apply mbind_inv in H. destruct H as [[masks flows] [w2 [E H]]].
  apply lift_inv in E. destruct E as [Heval ->]. simpl fst in *. simpl snd in *.
  apply mbind_inv in H. destruct H as [scores [w2 [E H]]].
  apply lift_inv in E. destruct E as [Hflows ->].
  destruct (nth_error flows 2) as [sc|] eqn:Hsc; [|discriminate].
  injection Hflows as ->.
  apply mbind_inv in H. destruct H as [m [w2 [E H]]].
  apply lift_inv in E. destruct E as [Hmax ->].
  apply mbind_inv in H. destruct H as [n [w2 [E H]]].
  apply lift_inv in E. destruct E as [Hlen ->].
  apply mbind_inv in H. destruct H as [? [w2 [E H]]].
  apply lift_inv in E. destruct E as [Ha1 ->].
  apply py_assert_inv, Z.eqb_eq in Ha1. subst m.
  apply mbind_inv in H. destruct H as [? [w2 [E H]]].
  apply lift_inv in E. destruct E as [Ha2 ->].
  apply py_assert_inv, Nat.eqb_eq in Ha2.
  apply mbind_inv in H. destruct H as [score_img [w2 [E H]]].
  apply lift_inv in E. destruct E as [Hsi ->].
  apply mbind_inv in H. destruct H as [? [w2 [E H]]].
  apply lift_inv in E. destruct E as [Ha3 ->].
  apply py_assert_inv, shape_eqb_eq in Ha3.
  apply mbind_inv in H. destruct H as [? [w2 [E H]]]. apply emit_inv in E. subst w2.
  apply write_result_inv in H. destruct H as [msg [prefix [Hmsg [Hp ->]]]].
  exists img, s, w1, masks, flows, scores, n, score_img, msg, prefix.
  repeat (split; [assumption|]).
  simpl. rewrite T. rewrite <- !app_assoc. reflexivity.
Qed.

End ReturningTurn.

Lemma returning_turn_witness :
  exists img s w1 masks flows scores n score_img msg prefix,
    read_input (parse_as input_two_pixels) (mk_world [0; 0; 0; 0] [])
    = (inr (img, s), w1) /\
    model_returns label_2x2 (flows_with scores_2) (normalize img)
    = inr (masks, flows) /\
    nth_error flows 2 = Some scores /\
    np_max (amap wrap64 masks) = inr (Z.of_nat n) /\
    np_len scores = inr n /\
    length (shape masks) = 2%nat /\
    score_image scores (amap wrap64 masks) = inr score_img /\
    shape score_img = shape masks /\
    result_msg (amap wrap64 masks) score_img = inr msg /\
    struct_pack_i (Z.of_nat (length (concat_buffers msg))) = inr prefix /\
    mk_world []
      [ EvPrintErr "received image" [1%nat; 2%nat; 1%nat];
        EvEval (normalize two_pixels);
        EvPrint "cellpose_server: Made prediction... trying to send pred...";
        EvWrite [0; 0; 0; 16];
        EvWrite [0; 0; 1; 244; 1; 244; 0; 250; 0; 0; 0; 1; 0; 1; 0; 2] ]
    = mk_world (stdin w1)
        (trace (mk_world [0; 0; 0; 0] []) ++
           [ EvPrintErr "received image" (shape img);
             EvEval (normalize img);
             EvPrint "cellpose_server: Made prediction... trying to send pred...";
             EvWrite prefix;
             EvWrite (concat_buffers msg) ]).
Proof.
  apply (@returning_turn unit (parse_as input_two_pixels) concat_buffers
           (model_returns label_2x2 (flows_with scores_2))
           (mk_world [0; 0; 0; 0] []) _ tt).
  reflexivity.
Defined.

(* ================================================================== *)
(** * Frames that read_input accepts *)
(* ================================================================== *)

(** A buffer of [4 * k] bytes holds [k] words. *)
Lemma words_be_total (k : nat) : forall bs : bytes,
  length bs = (4 * k)%nat ->
  exists ws, words_be bs = Some ws /\ length ws = k.
Proof.
  induction k as [|k IH]; intros bs Hlen.
  - destruct bs; [|discriminate]. exists []. split; reflexivity.
  - destruct bs as [|b0 [|b1 [|b2 [|b3 rest]]]]; simpl in Hlen; try lia.
    destruct (IH rest) as [ws [Hws Hl]]; [lia|].
    exists (word_be b0 b1 b2 b3 :: ws). simpl. rewrite Hws, Hl.
    split; reflexivity.
Qed.

(** Word [k] of a buffer is made of its bytes [4k] to [4k+3], the first
    the most significant. *)
Lemma words_be_nth (k : nat) : forall (bs : bytes) (ws : list Z) b0 b1 b2 b3,
  words_be bs = Some ws ->
  firstn 4 (skipn (4 * k) bs) = [b0; b1; b2; b3] ->
  nth_error ws k = Some (word_be b0 b1 b2 b3).
Proof.
  induction k as [|k IH]; intros bs ws b0 b1 b2 b3 Hws Hk.
  - destruct bs as [|c0 [|c1 [|c2 [|c3 rest]]]]; try discriminate.
    simpl in Hk. injection Hk as -> -> -> ->.
    simpl in Hws. destruct (words_be rest); [|discriminate].
    injection Hws as <-. reflexivity.
  - destruct bs as [|c0 [|c1 [|c2 [|c3 rest]]]]; simpl in Hws;
      try discriminate Hws.
    + rewrite skipn_nil in Hk. discriminate Hk.
    + replace (4 * S k)%nat with (S (S (S (S (4 * k))))) in Hk by lia.
      simpl in Hk. simpl in Hws.
      destruct (words_be rest) as [ws'|] eqn:E; [|discriminate].
      injection Hws as <-. simpl. apply (IH rest); assumption.
Qed.

(** [reshape(h, w, c)] with no negative dimension and the right number of
    elements only sets the shape. *)
Lemma np_reshape_ok {A} (a : ndarray A) (h w c : Z) :
  0 <= h -> 0 <= w -> 0 <= c ->
  Z.of_nat (length (elems a)) = h * w * c ->
  np_reshape a [h; w; c]
  = inr (mk_ndarray [Z.to_nat h; Z.to_nat w; Z.to_nat c] (elems a)).
Proof.
  intros Hh Hw Hc Hn. unfold np_reshape. simpl.
  rewrite (proj2 (Z.ltb_ge h 0) Hh), (proj2 (Z.ltb_ge w 0) Hw),
          (proj2 (Z.ltb_ge c 0) Hc).
  rewrite (proj2 (Z.leb_le 0 h) Hh), (proj2 (Z.leb_le 0 w) Hw),
          (proj2 (Z.leb_le 0 c) Hc).
  simpl.
  replace (Z.of_nat (length (elems a)) =? h * (w * (c * 1))) with true
    by (symmetry; apply Z.eqb_eq; lia).
  reflexivity.
Qed.

Section Reading.

Variable Settings : Type.
Variable ParseFromString : bytes -> option (Input Settings).

Local Abbreviation read_input' := (read_input ParseFromString).
Local Abbreviation decode_body' := (decode_body ParseFromString).

(** [read_input] after its length prefix: one more read, then
    [decode_body] on what was read. *)
Lemma read_input_after_prefix (w : world) (prefix rest : bytes) (n : Z) :
  stdin w = prefix ++ rest ->
  struct_unpack_i prefix = inr n ->
  read_input' w
  = match st_read n (mk_world rest (trace w)) with
    | (inl e, w') => (inl e, w')
    | (inr body, w') => (decode_body' body, w')
    end.
Proof.
  intros Hin Hn. destruct w as [inp tr]. simpl in Hin. subst inp.
  destruct prefix as [|b0 [|b1 [|b2 [|b3 [|b4 more]]]]]; try discriminate.
  unfold read_input.
  rewrite (mbind_ok (st_read 4) _ (mk_world ([b0; b1; b2; b3] ++ rest) tr)
             (a := [b0; b1; b2; b3]) (w' := mk_world rest tr) eq_refl).
  cbv beta. rewrite (mbind_lift_ok _ _ Hn). cbv beta.
  unfold mbind at 1. simpl trace.
  destruct (st_read n (mk_world rest tr)) as [[e|body] w2]; [reflexivity|].
  unfold decode_body, mbind, lift, mret.
  destruct (ParseFromString body) as [msg|]; [|reflexivity].
  simpl. destruct (np_frombuffer_f4 (im_data (image msg))) as [e|a]; [reflexivity|].
  simpl. destruct (np_reshape a _) as [e|a']; reflexivity.
Qed.

(** A frame written the way [write_result] writes one is read back whole:
    when the stream starts with [struct.pack(">i", len(body))] and [body],
    the parser is given exactly [body] and the stream is left at the byte
    after it.  When the body then parses to an image that holds
    [height*width*channel*4] bytes for non-negative dimensions,
    [read_input] returns an array of shape [(height, width, channel)] whose
    element [k] is the float32 encoded big-endian in bytes [4k] to [4k+3]
    of the data, together with the settings. *)
Theorem read_input_reads_frame
  (w : world) (prefix body rest : bytes) (msg : Input Settings) :
  stdin w = prefix ++ body ++ rest ->
  struct_pack_i (Z.of_nat (length body)) = inr prefix ->
  ParseFromString body = Some msg ->
  0 <= im_height (image msg) ->
  0 <= im_width (image msg) ->
  0 <= im_channel (image msg) ->
  Z.of_nat (length (im_data (image msg)))
  = im_height (image msg) * im_width (image msg) * im_channel (image msg) * 4 ->
  exists img,
    read_input' w = (inr (img, settings msg), mk_world rest (trace w)) /\
    shape img = [Z.to_nat (im_height (image msg)); Z.to_nat (im_width (image msg));
                 Z.to_nat (im_channel (image msg))] /\
    forall k b0 b1 b2 b3,
      firstn 4 (skipn (4 * k) (im_data (image msg))) = [b0; b1; b2; b3] ->
      nth_error (elems img) k = Some (F32.of_bits (word_be b0 b1 b2 b3)).
Proof.
  intros Hin Hp Hmsg Hh Hw Hc Hlen.
  destruct (struct_pack_unpack _ Hp) as [Hu _].
  rewrite (read_input_after_prefix w _ _ Hin Hu).
  unfold st_read.
  replace (Z.of_nat (length body) <? -1) with false by (symmetry; apply Z.ltb_ge; lia).
  replace (Z.of_nat (length body) =? -1) with false by (symmetry; apply Z.eqb_neq; lia).
  simpl stdin. simpl trace.
  rewrite Nat2Z.id, firstn_app, Nat.sub_diag, firstn_all, firstn_O, app_nil_r.
  rewrite skipn_app, Nat.sub_diag, skipn_all, skipn_O, app_nil_l.
  unfold ret at 1. cbv beta iota.
  destruct (@words_be_total
              (Z.to_nat (im_height (image msg) * im_width (image msg) * im_channel (image msg)))
              (im_data (image msg))) as [ws [Hws Hl]]; [lia|].
  unfold decode_body. rewrite Hmsg. simpl.
  unfold np_frombuffer_f4. rewrite Hws. simpl.
  rewrite np_reshape_ok; trivial; [|simpl; rewrite length_map; lia].
  simpl. eexists. split; [reflexivity|]. split; [reflexivity|].
  intros k b0 b1 b2 b3 Hk. simpl.
  rewrite nth_error_map, (words_be_nth k _ Hws Hk). reflexivity.
Qed.

(** A length prefix below -1 is a [ValueError]: [st.read] refuses the
    size.  The four bytes of the prefix are gone from the stream. *)
Theorem negative_length_raises_value_error
  (w : world) (prefix rest : bytes) (n : Z) :
  stdin w = prefix ++ rest ->
  struct_unpack_i prefix = inr n ->
  n < -1 ->
  read_input' w = (inl ValueError, mk_world rest (trace w)).
Proof.
  intros Hin Hn Hneg.
  rewrite (read_input_after_prefix w _ _ Hin Hn).
  unfold st_read.
  replace (n <? -1) with true by (symmetry; apply Z.ltb_lt; lia).
  reflexivity.
Qed.

(** A stream that closes inside a frame raises nothing of its own: when
    fewer bytes than the prefix announces are left, or the prefix is -1,
    all that is left is taken as the body and decoded like a whole one. *)
Theorem short_body_is_decoded
  (w : world) (prefix rest : bytes) (n : Z) :
  stdin w = prefix ++ rest ->
  struct_unpack_i prefix = inr n ->
  n = -1 \/ Z.of_nat (length rest) <= n ->
  read_input' w = (decode_body' rest, mk_world [] (trace w)).
Proof.
  intros Hin Hn Hshort.
  rewrite (read_input_after_prefix w _ _ Hin Hn).
  unfold st_read. simpl stdin. simpl trace.
  destruct Hshort as [-> | Hle]; [reflexivity|].
  replace (n <? -1) with false by (symmetry; apply Z.ltb_ge; lia).
  replace (n =? -1) with false by (symmetry; apply Z.eqb_neq; lia).
  rewrite firstn_all2 by lia. rewrite skipn_all2 by lia. reflexivity.
Qed.

End Reading.

Lemma read_input_reads_frame_witness :
  exists img,
    read_input (parse_as input_two_pixels) (mk_world [0; 0; 0; 3; 7; 7; 7; 9] [])
    = (inr (img, tt), mk_world [9] []) /\
    shape img = [1%nat; 2%nat; 1%nat] /\
    forall k b0 b1 b2 b3,
      firstn 4 (skipn (4 * k) (bytes_1_0 ++ bytes_2_0)) = [b0; b1; b2; b3] ->
      nth_error (elems img) k = Some (F32.of_bits (word_be b0 b1 b2 b3)).
Proof.
  apply (@read_input_reads_frame unit (parse_as input_two_pixels)
           (mk_world [0; 0; 0; 3; 7; 7; 7; 9] []) [0; 0; 0; 3] [7; 7; 7] [9]
           input_two_pixels); try reflexivity; simpl; lia.
Defined.

Lemma negative_length_raises_value_error_witness :
  read_input (parse_as input_two_pixels) (mk_world [255; 255; 255; 254; 1; 2] [])
  = (inl ValueError, mk_world [1; 2] []).
Proof.
  apply (@negative_length_raises_value_error unit (parse_as input_two_pixels)
           (mk_world [255; 255; 255; 254; 1; 2] []) [255; 255; 255; 254] [1; 2] (-2));
    try reflexivity; lia.
Defined.

Lemma short_body_is_decoded_witness :
  read_input parse_nothing (mk_world [0; 0; 0; 9; 1; 2] [])
  = (decode_body parse_nothing [1; 2], mk_world [] []).
Proof.
  apply (@short_body_is_decoded unit parse_nothing
           (mk_world [0; 0; 0; 9; 1; 2] []) [0; 0; 0; 9] [1; 2] 9);
    try reflexivity.
  right. simpl. lia.
Defined.

(* ================================================================== *)
(** * img_to_msg by the number of dimensions *)
(* ================================================================== *)

(** [img_to_msg] takes two-dimensional arrays and nothing else that holds
    more than its first two dimensions say.  An array of no or one
    dimension raises [IndexError] at [img.shape[1]]; an array of three
    dimensions passes the final [assert] when its last dimension holds one
    element per pixel, and raises [AssertionError] when [h*w*c] differs
    from [h*w]. *)
Theorem img_to_msg_by_rank (n h w c : nat) (vs : list Z) :
  Z.of_nat n <= 2147483647 ->
  Z.of_nat h <= 2147483647 ->
  Z.of_nat w <= 2147483647 ->
  length vs = (h * w * c)%nat ->
  img_to_msg (mk_ndarray [] vs) = inl IndexError /\
  img_to_msg (mk_ndarray [n] vs) = inl IndexError /\
  img_to_msg (mk_ndarray [h; w; c] vs)
  = if (h * w * c =? h * w)%nat
    then inr (mk_IntMatrix (Z.of_nat h) (Z.of_nat w)
                           (flat_map int16_be (map wrap16 vs)))
    else inl AssertionError.
Proof.
  intros Hn Hh Hw Hlen.
  assert (forall k : nat, Z.of_nat k <= 2147483647 -> set_int32 (Z.of_nat k) = inr (Z.of_nat k))
    as Hset.
  { intros k Hk. unfold set_int32, in_int32.
    replace ((-2147483648 <=? Z.of_nat k) && (Z.of_nat k <=? 2147483647)) with true
      by (symmetry; apply andb_true_intro; split; apply Z.leb_le; lia).
    reflexivity. }
  split; [reflexivity|]. split.
  - unfold img_to_msg. simpl. rewrite (Hset n Hn). reflexivity.
  - unfold img_to_msg. simpl. rewrite (Hset h Hh). simpl. rewrite (Hset w Hw). simpl.
    unfold tobytes_i2. simpl. rewrite tobytes_i2_length, length_map, Hlen.
    destruct (Nat.eqb_spec (h * w * c) (h * w)) as [E|E].
    + replace (Z.of_nat (2 * (h * w * c)) =? Z.of_nat h * Z.of_nat w * 2) with true
        by (symmetry; apply Z.eqb_eq; lia).
      reflexivity.
    + replace (Z.of_nat (2 * (h * w * c)) =? Z.of_nat h * Z.of_nat w * 2) with false
        by (symmetry; apply Z.eqb_neq; lia).
      reflexivity.
Qed.

Lemma img_to_msg_by_rank_witness :
  img_to_msg (mk_ndarray [] [1; 2; 3; 4; 5; 6; 7; 8]) = inl IndexError /\
  img_to_msg (mk_ndarray [8%nat] [1; 2; 3; 4; 5; 6; 7; 8]) = inl IndexError /\
  img_to_msg (mk_ndarray [2%nat; 2%nat; 2%nat] [1; 2; 3; 4; 5; 6; 7; 8])
  = inl AssertionError.
Proof.
  apply (@img_to_msg_by_rank 8 2 2 2 [1; 2; 3; 4; 5; 6; 7; 8]);
    try reflexivity; simpl; lia.
Defined.

(* ================================================================== *)
(** * NaN in the image *)
(* ================================================================== *)

Lemma sum_nan_acc (l : list F32.t) : fold_left F32.add l S754_nan = S754_nan.
Proof. induction l as [|v l IH]; [reflexivity|]. simpl. exact IH. Qed.

Lemma add_nan_r (a : F32.t) : F32.add a S754_nan = S754_nan.
Proof. destruct a; reflexivity. Qed.

Lemma sum_with_nan (l : list F32.t) : forall acc,
  In S754_nan l -> fold_left F32.add l acc = S754_nan.
Proof.
  induction l as [|v l IH]; intros acc Hin; [contradiction|].
  simpl. destruct Hin as [-> | Hin].
  - rewrite add_nan_r. apply sum_nan_acc.
  - apply IH. exact Hin.
Qed.

Lemma sub_nan_r (a : F32.t) : F32.sub a S754_nan = S754_nan.
Proof. destruct a; reflexivity. Qed.

(** One NaN pixel makes the whole normalised image NaN: the mean is NaN,
    so every centred pixel is, and every quotient after it. *)
Theorem nan_pixel_spreads (img : ndarray F32.t) :
  In S754_nan (elems img) ->
  Forall (eq S754_nan) (elems (normalize img)).
Proof.
  intros Hin.
  assert (np_mean img = S754_nan) as Hmean.
  { unfold np_mean, np_sum. rewrite (sum_with_nan _ _ Hin). reflexivity. }
  unfold normalize, centred. cbv zeta. simpl elems. rewrite Hmean.
  apply Forall_forall. intros v Hv.
  apply in_map_iff in Hv. destruct Hv as [u [<- Hu]].
  apply in_map_iff in Hu. destruct Hu as [t [<- _]].
  rewrite sub_nan_r. reflexivity.
Qed.

Lemma nan_pixel_spreads_witness :
  Forall (eq S754_nan) (elems (normalize (mk_ndarray [2%nat] [F32.one; S754_nan]))).
Proof.
  apply (@nan_pixel_spreads (mk_ndarray [2%nat] [F32.one; S754_nan])).
  simpl. right. left. reflexivity.
Defined.

(* ================================================================== *)
(** * A turn that raises after the frame is read *)
(* ================================================================== *)

Section Failing.

Variable Settings : Type.
Variable ParseFromString : bytes -> option (Input Settings).
Variable SerializeResult : Result -> bytes.
Variable model_eval : ndarray F32.t -> result (ndarray Z * list (ndarray F32.t)).

Local Abbreviation read_input' := (read_input ParseFromString).
Local Abbreviation serve_cycle' := (serve_cycle ParseFromString SerializeResult model_eval).
Local Abbreviation main_loop' := (main_loop ParseFromString SerializeResult model_eval).

(** A turn once the frame is read: the shape is printed, the model is
    called, and [answer] deals with what it returns. *)
Lemma serve_cycle_after_read (w w1 : world) (img : ndarray F32.t) (s : Settings) :
  read_input' w = (inr (img, s), w1) ->
  serve_cycle' w
  = mbind (lift (model_eval (normalize img))) (answer SerializeResult)
      (mk_world (stdin w1)
         (trace w1 ++ [EvPrintErr "received image" (shape img);
                       EvEval (normalize img)])).
Proof.
  intros R. unfold serve_cycle.
  rewrite (mbind_ok _ _ _ R). cbv beta. simpl fst.
  rewrite !mbind_emit. simpl stdin. simpl trace.
  rewrite <- app_assoc. reflexivity.
Qed.

(** Whatever exception the model raises ends [main] as it is, once the
    shape has been printed and the model called; no frame answers the
    request. *)
Theorem model_exception_ends_main
  (fuel : nat) (w w1 : world) (img : ndarray F32.t) (s : Settings) (e : exn) :
  read_input' w = (inr (img, s), w1) ->
  model_eval (normalize img) = inl e ->
  main_loop' (S fuel) w
  = (Raised e,
     mk_world (stdin w1)
              (trace w1 ++ [EvPrintErr "received image" (shape img);
                            EvEval (normalize img)])).
Proof.
  intros R He. simpl.
  rewrite (serve_cycle_after_read w R).
  rewrite (mbind_lift_raise _ _ He). reflexivity.
Qed.

(** What the model returns is used as it comes.  Fewer than three flows
    is an [IndexError] at [flows[:][2]]; masks without a pixel are a
    [ValueError] at [label.max()]; scores without a dimension are a
    [TypeError] at [len(scores)]; masks that are not two-dimensional are an
    [AssertionError].  Each ends the turn before anything is written. *)
Theorem malformed_model_output_raises
  (w w1 : world) (img : ndarray F32.t) (s : Settings)
  (masks : ndarray Z) (flows : list (ndarray F32.t)) :
  read_input' w = (inr (img, s), w1) ->
  model_eval (normalize img) = inr (masks, flows) ->
  let after_eval :=
    mk_world (stdin w1)
             (trace w1 ++ [EvPrintErr "received image" (shape img);
                           EvEval (normalize img)]) in
  ((length flows < 3)%nat -> serve_cycle' w = (inl IndexError, after_eval)) /\
  (forall scores, nth_error flows 2 = Some scores ->
     (elems masks = [] -> serve_cycle' w = (inl ValueError, after_eval)) /\
     (elems masks <> [] -> shape scores = [] ->
      serve_cycle' w = (inl TypeError, after_eval)) /\
     (forall n, np_max (amap wrap64 masks) = inr (Z.of_nat n) ->
        np_len scores = inr n ->
        length (shape masks) <> 2%nat ->
        serve_cycle' w = (inl AssertionError, after_eval))).
Proof.
  intros R He after_eval.
  rewrite (serve_cycle_after_read w R). fold after_eval.
  rewrite (mbind_lift_ok _ _ He). unfold answer. cbv zeta. simpl fst. simpl snd.
  split.
  - intros Hshort.
    assert (nth_error flows 2 = None) as -> by (apply nth_error_None; lia).
    reflexivity.
  - intros scores Hs. split; [|split].
    + intros Hempty.
      rewrite Hs. rewrite (mbind_lift_ok _ _ eq_refl). cbv beta.
      apply mbind_lift_raise. unfold np_max. simpl. rewrite Hempty. reflexivity.
    + intros Hne Hshape.
      rewrite Hs. rewrite (mbind_lift_ok _ _ eq_refl). cbv beta.
      destruct (np_max (amap wrap64 masks)) as [e|m] eqn:Em.
      * exfalso. unfold np_max in Em. simpl in Em.
        destruct (elems masks); [contradiction | discriminate].
      * rewrite (mbind_lift_ok _ _ eq_refl). cbv beta.
        apply mbind_lift_raise. unfold np_len. rewrite Hshape. reflexivity.
    + intros n Hmax Hlen Hdim.
      rewrite Hs. rewrite (mbind_lift_ok _ _ eq_refl). cbv beta.
      rewrite (mbind_lift_ok _ _ Hmax). cbv beta.
      rewrite (mbind_lift_ok _ _ Hlen). cbv beta.
      rewrite Z.eqb_refl. rewrite mbind_assert_true.
      simpl shape at 1.
      replace (length (shape masks) =? 2)%nat with false
        by (symmetry; apply Nat.eqb_neq; exact Hdim).
      apply mbind_assert_false.
Qed.

End Failing.

Lemma model_exception_ends_main_witness :
  main_loop (parse_as input_two_pixels) concat_buffers model_raises 1
            (mk_world [0; 0; 0; 0] [])
  = (Raised ModelError,
     mk_world [] ([] ++ [EvPrintErr "received image" [1%nat; 2%nat; 1%nat];
                         EvEval (normalize two_pixels)])).
Proof.
  apply (@model_exception_ends_main unit (parse_as input_two_pixels)
           concat_buffers model_raises 0 (mk_world [0; 0; 0; 0] [])
           (mk_world [] []) two_pixels tt ModelError); reflexivity.
Defined.

Lemma malformed_model_output_raises_witness :
  serve_cycle (parse_as input_two_pixels) concat_buffers
              (model_returns label_2x2 [scores_2; scores_2])
              (mk_world [0; 0; 0; 0] [])
  = (inl IndexError,
     mk_world [] ([] ++ [EvPrintErr "received image" [1%nat; 2%nat; 1%nat];
                         EvEval (normalize two_pixels)])).
Proof.
  apply (proj1 (@malformed_model_output_raises unit (parse_as input_two_pixels)
                  concat_buffers (model_returns label_2x2 [scores_2; scores_2])
                  (mk_world [0; 0; 0; 0] []) (mk_world [] []) two_pixels tt
                  label_2x2 [scores_2; scores_2] eq_refl eq_refl)).
  simpl. lia.
Defined.

Lemma map_wrap64_in_range (vs : list Z) :
  Forall (fun v => - 2 ^ 63 <= v < 2 ^ 63) vs -> map wrap64 vs = vs.
Proof.
  induction 1 as [|v vs Hv _ IH]; [reflexivity|].
  simpl. rewrite IH, (wrap64_in_range Hv). reflexivity.
Qed.

(** The whole score image for one-dimensional, well-formed scores and
    labels that are background or the number of an instance. *)
Lemma score_image_1d (sc : list F32.t) (lbl : ndarray Z) :
  (0 < length sc)%nat ->
  Z.of_nat (length sc) < 2 ^ 63 ->
  Forall (fun s => valid s = true) sc ->
  wf lbl ->
  Forall (fun v => 0 <= v <= Z.of_nat (length sc)) (elems lbl) ->
  score_image (mk_ndarray [length sc] sc) lbl
  = inr (mk_ndarray (shape lbl) (score_pixels sc (elems lbl))).
Proof.
  intros Hn Hn63 Hvalid Hwf Hall.
  unfold score_image.
  rewrite np_take_1d.
  - simpl bind. unfold np_imul_mask. simpl shape. simpl elems.
    rewrite app_nil_r, broadcastable_same. unfold ret. do 2 f_equal.
    apply nth_error_ext. intros k.
    rewrite nth_error_mapi. unfold score_pixels. rewrite !map_map, !nth_error_map.
    destruct (nth_error (elems lbl) k) as [v|] eqn:Hk; [|reflexivity].
    simpl. f_equal.
    rewrite bcast_index_same
      by (rewrite <- Hwf; apply nth_error_Some; rewrite Hk; discriminate).
    rewrite (nth_indep _ false (0 <? v))
      by (rewrite length_map; apply nth_error_Some; rewrite Hk; discriminate).
    rewrite (map_nth (fun v => 0 <? v)).
    rewrite (nth_error_nth _ _ _ Hk).
    rewrite Forall_forall in Hall.
    pose proof (Hall v (nth_error_In _ _ Hk)) as Hv.
    rewrite wrap64_in_range by lia.
    unfold py_index.
    destruct (Z.ltb_spec 0 v) as [Hpos|Hzero].
    + replace (v - 1 <? 0) with false by (symmetry; apply Z.ltb_ge; lia).
      apply mul_one.
      rewrite Forall_forall in Hvalid. apply Hvalid. apply nth_In. lia.
    + assert (v = 0) as -> by lia.
      change (0 - 1 <? 0) with true. cbv iota.
      replace (Z.to_nat (0 - 1 + Z.of_nat (length sc))) with (length sc - 1)%nat by lia.
      reflexivity.
  - simpl. apply Forall_forall. intros i Hi.
    apply in_map_iff in Hi. destruct Hi as [v [<- Hv]].
    rewrite Forall_forall in Hall. specialize (Hall v Hv).
    rewrite wrap64_in_range by lia. lia.
Qed.

Lemma shape_eqb_refl (sh : list nat) : shape_eqb sh sh = true.
Proof. apply shape_eqb_eq. reflexivity. Qed.

(** [write_result] on two matrices of the same two dimensions. *)
Lemma write_result_2d (ser : Result -> bytes)
  (h w : nat) (ls : list Z) (ss : list F32.t) (wd : world) (prefix : bytes) :
  length ls = (h * w)%nat ->
  length ss = (h * w)%nat ->
  Z.of_nat h <= 2147483647 ->
  Z.of_nat w <= 2147483647 ->
  let msg :=
    mk_Result
      (mk_IntMatrix (Z.of_nat h) (Z.of_nat w) (flat_map int16_be (map wrap16 ls)))
      (mk_IntMatrix (Z.of_nat h) (Z.of_nat w)
                    (flat_map int16_be (map wrap16 (map quantize ss)))) in
  struct_pack_i (Z.of_nat (length (ser msg))) = inr prefix ->
  write_result ser (mk_ndarray [h; w] ls) (mk_ndarray [h; w] ss) wd
  = (inr tt,
     mk_world (stdin wd) (trace wd ++ [EvWrite prefix; EvWrite (ser msg)])).
Proof.
  intros Hls Hss Hh Hw msg Hp.
  unfold write_result, result_msg, amap. simpl shape. simpl elems.
  rewrite (img_to_msg_2d h w (map quantize ss)) by (rewrite ?length_map; assumption).
  rewrite (img_to_msg_2d h w ls) by assumption.
  simpl bind. fold msg. rewrite (mbind_lift_ok _ _ eq_refl). cbv beta zeta.
  rewrite (mbind_lift_ok _ _ Hp). cbv beta.
  unfold st_write. rewrite mbind_emit. unfold emit. simpl.
  rewrite <- app_assoc. reflexivity.
Qed.

Section ContractTurn.

Variable Settings : Type.
Variable ParseFromString : bytes -> option (Input Settings).
Variable SerializeResult : Result -> bytes.
Variable model_eval : ndarray F32.t -> result (ndarray Z * list (ndarray F32.t)).

Local Abbreviation read_input' := (read_input ParseFromString).
Local Abbreviation serve_cycle' := (serve_cycle ParseFromString SerializeResult model_eval).

(** A turn answers whenever the model keeps to its contract: a
    two-dimensional label whose values are background or the number of an
    instance, at least one instance, and one well-formed score per
    instance with [max(label) == len(scores)].  The frame it writes holds
    the label, and the score of its instance for every pixel
    ([scores[-1] * 0.0] on the background), each as big-endian int16. *)
Theorem contract_turn_writes_result
  (w w1 : world) (img : ndarray F32.t) (s : Settings)
  (h wd : nat) (ls : list Z) (flows : list (ndarray F32.t)) (sc : list F32.t) :
  read_input' w = (inr (img, s), w1) ->
  model_eval (normalize img) = inr (mk_ndarray [h; wd] ls, flows) ->
  nth_error flows 2 = Some (mk_ndarray [length sc] sc) ->
  length ls = (h * wd)%nat ->
  Z.of_nat h <= 2147483647 ->
  Z.of_nat wd <= 2147483647 ->
  Forall (fun v => 0 <= v <= Z.of_nat (length sc)) ls ->
  np_max (mk_ndarray [h; wd] ls) = inr (Z.of_nat (length sc)) ->
  (0 < length sc)%nat ->
  Z.of_nat (length sc) < 2 ^ 63 ->
  Forall (fun v => valid v = true) sc ->
  let msg :=
    mk_Result
      (mk_IntMatrix (Z.of_nat h) (Z.of_nat wd) (flat_map int16_be (map wrap16 ls)))
      (mk_IntMatrix (Z.of_nat h) (Z.of_nat wd)
         (flat_map int16_be (map wrap16 (map quantize (score_pixels sc ls))))) in
  Z.of_nat (length (SerializeResult msg)) <= 2147483647 ->
  exists prefix,
    struct_pack_i (Z.of_nat (length (SerializeResult msg))) = inr prefix /\
    serve_cycle' w
    = (inr tt,
       mk_world (stdin w1)
         (trace w1 ++
            [ EvPrintErr "received image" (shape img);
              EvEval (normalize img);
              EvPrint "cellpose_server: Made prediction... trying to send pred...";
              EvWrite prefix;
              EvWrite (SerializeResult msg) ])).
Proof.
  intros R He Hs Hlen Hh Hw Hall Hmax Hn Hn63 Hvalid msg Hsize.
  destruct (struct_pack_i_ok _ Hsize) as [prefix [Hp _]].
  exists prefix. split; [exact Hp|].
  rewrite (serve_cycle_after_read ParseFromString SerializeResult model_eval w R).
  rewrite (mbind_lift_ok _ _ He). unfold answer. cbv zeta. simpl fst. simpl snd.
  assert (amap wrap64 (mk_ndarray [h; wd] ls) = mk_ndarray [h; wd] ls) as ->.
  { unfold amap. simpl. rewrite map_wrap64_in_range; [reflexivity|].
    eapply Forall_impl; [|exact Hall]. intros v Hv. simpl in Hv. lia. }
  rewrite Hs. rewrite (mbind_lift_ok _ _ eq_refl). cbv beta.
  rewrite (mbind_lift_ok _ _ Hmax). cbv beta.
  rewrite (mbind_lift_ok (r := np_len (mk_ndarray [length sc] sc)) _ _ eq_refl).
  cbv beta. rewrite Z.eqb_refl, mbind_assert_true.
  simpl shape. simpl Nat.eqb. rewrite mbind_assert_true.
  assert (wf (mk_ndarray [h; wd] ls)) as Hwf by (unfold wf; simpl; lia).
  rewrite (mbind_lift_ok _ _ (score_image_1d Hn Hn63 Hvalid Hwf Hall)). cbv beta.
  simpl shape. rewrite shape_eqb_refl, mbind_assert_true.
  rewrite mbind_emit.
  assert (length (score_pixels sc ls) = (h * wd)%nat) as Hpx
    by (unfold score_pixels; rewrite length_map; exact Hlen).
  rewrite (@write_result_2d SerializeResult h wd ls (score_pixels sc ls) _ prefix
             Hlen Hpx Hh Hw Hp).
  simpl. rewrite <- !app_assoc. reflexivity.
Qed.

End ContractTurn.

Lemma contract_turn_writes_result_witness :
  exists prefix,
    struct_pack_i 16 = inr prefix /\
    serve_cycle (parse_as input_two_pixels) concat_buffers
                (model_returns label_2x2 (flows_with scores_2))
                (mk_world [0; 0; 0; 0] [])
    = (inr tt,
       mk_world []
         ([] ++
          [ EvPrintErr "received image" [1%nat; 2%nat; 1%nat];
            EvEval (normalize two_pixels);
            EvPrint "cellpose_server: Made prediction... trying to send pred...";
            EvWrite prefix;
            EvWrite [0; 0; 1; 244; 1; 244; 0; 250; 0; 0; 0; 1; 0; 1; 0; 2] ])).
Proof.
  apply (@contract_turn_writes_result unit (parse_as input_two_pixels)
           concat_buffers (model_returns label_2x2 (flows_with scores_2))
           (mk_world [0; 0; 0; 0] []) (mk_world [] []) two_pixels tt
           2 2 [0; 1; 1; 2] (flows_with scores_2) [f32_0_5; f32_0_25]);
    try reflexivity; try (simpl; lia).
  - repeat constructor; simpl; lia.
  - repeat constructor.
Defined.

(* ================================================================== *)
(** * Quantisation is symmetric about zero *)
(* ================================================================== *)

Lemma binary_round_aux_negb (sx : bool) (mx ex : Z) (lx : location) :
  binary_round_aux F32.prec F32.emax (negb sx) mx ex lx
  = SFopp (binary_round_aux F32.prec F32.emax sx mx ex lx).
Proof.
  unfold binary_round_aux.
  destruct (shr_fexp F32.prec F32.emax mx ex lx) as [mrs e'].
  destruct (shr_fexp F32.prec F32.emax _ e' loc_Exact) as [mrs'' e''].
  destruct (shr_m mrs''); try reflexivity.
  destruct (e'' <=? F32.emax - F32.prec); reflexivity.
Qed.

Lemma mul_opp (s k : F32.t) : F32.mul (SFopp s) k = SFopp (F32.mul s k).
Proof.
  destruct s as [sx|sx| |sx mx ex], k as [sy|sy| |sy my ey]; simpl;
    try reflexivity;
    try (destruct sx, sy; reflexivity).
  unfold F32.mul, SFmul.
  replace (xorb (negb sx) sy) with (negb (xorb sx sy)) by (destruct sx, sy; reflexivity).
  apply binary_round_aux_negb.
Qed.

Lemma trunc_opp (v : F32.t) :
  F32.trunc (SFopp v) = option_map Z.opp (F32.trunc v).
Proof.
  destruct v as [sx|sx| |sx mx ex]; try reflexivity.
  simpl. destruct sx; simpl; rewrite ?Z.opp_involutive; reflexivity.
Qed.

(** The cast to int16 truncates toward zero, so quantisation is symmetric:
    a score whose scaled value lies within [-32767, 32767] and its
    negation are encoded as opposite numbers. *)
Theorem quantize_opp (s : F32.t) (t : Z) :
  F32.trunc (F32.mul s (F32.of_Z 1000)) = Some t ->
  -32767 <= t <= 32767 ->
  quantize s = t /\ quantize (SFopp s) = - t.
Proof.
  intros Ht Hr.
  assert (forall v, -32767 <= v <= 32767 -> in_int16 v = true) as Hin.
  { intros v Hv. unfold in_int16. apply andb_true_intro.
    split; apply Z.leb_le; lia. }
  split.
  - apply quantize_in_range; [exact Ht | apply Hin; exact Hr].
  - apply quantize_in_range.
    + rewrite mul_opp, trunc_opp, Ht. reflexivity.
    + apply Hin. lia.
Qed.

Lemma quantize_opp_witness :
  quantize f32_0_25 = 250 /\ quantize (SFopp f32_0_25) = - 250.
Proof.
  apply (@quantize_opp f32_0_25 250); [reflexivity | lia].
Defined.
